(** * HIT ticket management: lifecycle and assignment engine

    A shallow embedding of the ticket workflow of the API server:
    the status table and the status route, the approval routes, the
    assignment routes (assign, self-assign, reassign, unassign, auto-assign),
    the SLA calculator and [Ticket.isOverdue]; the permission, role and
    validation middleware of these routes, the comment route, the where
    clause of the ticket list, the assignment dashboard and the team
    workload report.

    Conventions of the embedding.
    - Primary keys of tickets and users are UUIDs; they are modelled by
      [positive], an opaque key that is never the empty string, so that the
      JavaScript test [!ticket.assigned_to] is exactly "the column is NULL".
      A table is a finite map from the primary key to the other columns; a
      model instance is the key together with its row.
    - A [Date] is its time value, a [Z] number of milliseconds since the epoch.
      The handlers run in a zone with a fixed offset ([JsDate]); the SLA
      calculator is also given for an arbitrary host zone and with the range
      limit of time values ([HostDate], [calculateSLADeadlineIn]).
    - A JavaScript string is modelled by a [string] that holds one character
      for each UTF-16 code unit, so that [length], [substring], [===] and the
      ordering of the code units are those of the model; the strings of the
      model are those whose code units are below 256.
    - A row holds the columns that the handlers read or write by name.  The
      column [updated_at], which Sequelize rewrites on every
      [instance.update] of a model with timestamps, is not part of a row.
    - Every handler takes the store (the database tables) and returns the
      HTTP response together with the new store.  Storage calls are total:
      infrastructure failures of the database are not modelled.
    - [new Date()] inside a handler reads the clock; the reading is passed to
      the handler as [now]. *)

From Stdlib Require Import ZArith String List Lia.
From stdpp Require Import gmap strings list fin_maps pretty sorting.

Local Open Scope Z_scope.
Local Open Scope string_scope.

Abbreviation Uuid := positive.

(** ** JavaScript dates with a fixed local offset *)

Module JsDate.

Definition msPerSecond : Z := 1000.
Definition msPerMinute : Z := 60000.
Definition msPerHour : Z := 3600000.
Definition msPerDay : Z := 86400000.

Definition Day (t : Z) : Z := t / msPerDay.
Definition HourFromTime (t : Z) : Z := (t / msPerHour) mod 24.
Definition MinFromTime (t : Z) : Z := (t / msPerMinute) mod 60.
Definition SecFromTime (t : Z) : Z := (t / msPerSecond) mod 60.
Definition msFromTime (t : Z) : Z := t mod msPerSecond.

Definition MakeTime (hour min sec ms : Z) : Z :=
  hour * msPerHour + min * msPerMinute + sec * msPerSecond + ms.
Definition MakeDate (day time : Z) : Z := day * msPerDay + time.

Section LocalZone.
(** Offset of the server's local time from UTC, in milliseconds.  The
    zone has no daylight-saving changes. *)
Variable tzOffset : Z.

Definition LocalTime (t : Z) : Z := t + tzOffset.
Definition UTC (t : Z) : Z := t - tzOffset.

(** [d.getHours()] *)
Definition getHours (d : Z) : Z := HourFromTime (LocalTime d).

(** [d.setHours(hour)]: the new time value of [d]. *)
Definition setHours (d : Z) (hour : Z) : Z :=
  let t := LocalTime d in
  let time := MakeTime hour (MinFromTime t) (SecFromTime t) (msFromTime t) in
  UTC (MakeDate (Day t) time).
End LocalZone.

End JsDate.

(** ** JavaScript dates in the zone of the host *)

Module HostDate.

(** The time zone of the host: [utcOffset t] is the offset of local time
    from UTC at the instant [t] ([LocalTZA(t, true)]), and [localOffset t]
    the offset that the host chooses for the local time [t]
    ([LocalTZA(t, false)]); around a daylight-saving change the two differ. *)
Record Zone := mkZone {
  utcOffset : Z -> Z;
  localOffset : Z -> Z
}.

(** A zone without daylight-saving changes. *)
Definition fixedZone (tzOffset : Z) : Zone :=
  mkZone (fun _ => tzOffset) (fun _ => tzOffset).

(** The largest time value, 8.64e15 ms. *)
Definition maxTime : Z := 8640000000000000.

(** [TimeClip(time)]; [None] is NaN, the time value of an Invalid Date. *)
Definition TimeClip (time : Z) : option Z :=
  if bool_decide (Z.abs time ≤ maxTime)%Z then Some time else None.

Section HostZone.
Variable zone : Zone.

Definition LocalTime (t : Z) : Z := t + utcOffset zone t.
Definition UTC (t : Z) : Z := t - localOffset zone t.

(** [d.getHours()]: NaN for an Invalid Date. *)
Definition getHours (d : option Z) : option Z :=
  match d with
  | Some t => Some (JsDate.HourFromTime (LocalTime t))
  | None => None
  end.

(** [d.setHours(hour)]: the new time value of [d]. *)
Definition setHours (d : option Z) (hour : option Z) : option Z :=
  match d, hour with
  | Some t, Some hour =>
      let t := LocalTime t in
      let time := JsDate.MakeTime hour (JsDate.MinFromTime t) (JsDate.SecFromTime t)
                    (JsDate.msFromTime t) in
      TimeClip (UTC (JsDate.MakeDate (JsDate.Day t) time))
  | _, _ => None
  end.
End HostZone.

End HostDate.

(** ** SLA calculator (models/index.ts) *)

(** [calculateSLADeadline(priority, createdAt = new Date())].  The second
    argument goes through [new Date(createdAt)]: a [Date] contributes its
    time value and a number is taken as a time value, so both are a [Z]
    here; [None] is an omitted argument, which defaults to the clock.  This
    is the calculator on a host whose zone has the fixed offset [tz], for
    time values in range; [calculateSLADeadlineIn] below is the calculator
    on any host. *)
Definition calculateSLADeadline (tz : Z) (now : Z)
    (priority : string) (createdAt : option Z) : Z :=
  let deadline := default now createdAt in
  if String.eqb priority "critical" then
    JsDate.setHours tz deadline (JsDate.getHours tz deadline + 2)
  else if String.eqb priority "high" then
    JsDate.setHours tz deadline (JsDate.getHours tz deadline + 8)
  else if String.eqb priority "medium" then
    JsDate.setHours tz deadline (JsDate.getHours tz deadline + 24)
  else if String.eqb priority "low" then
    JsDate.setHours tz deadline (JsDate.getHours tz deadline + 72)
  else
    JsDate.setHours tz deadline (JsDate.getHours tz deadline + 24).

(** [calculateSLADeadline] in the zone of the host, with the range limit of
    time values: the result is the time value of the returned [Date], [None]
    for an Invalid Date.  [new Date(createdAt)] clips its argument. *)
Definition calculateSLADeadlineIn (zone : HostDate.Zone) (now : Z)
    (priority : string) (createdAt : option Z) : option Z :=
  let deadline := HostDate.TimeClip (default now createdAt) in
  let plus (h : Z) := (fun x => x + h) <$> HostDate.getHours zone deadline in
  if String.eqb priority "critical" then
    HostDate.setHours zone deadline (plus 2)
  else if String.eqb priority "high" then
    HostDate.setHours zone deadline (plus 8)
  else if String.eqb priority "medium" then
    HostDate.setHours zone deadline (plus 24)
  else if String.eqb priority "low" then
    HostDate.setHours zone deadline (plus 72)
  else
    HostDate.setHours zone deadline (plus 24).

(** ** Data model (models/*.ts) *)

Inductive Status : Set :=
| pending | admin_review | approved | rejected | in_progress | completed | closed.

Global Instance Status_eq_dec : EqDecision Status.
Proof. solve_decision. Defined.

Definition status_name (s : Status) : string :=
  match s with
  | pending => "pending"
  | admin_review => "admin_review"
  | approved => "approved"
  | rejected => "rejected"
  | in_progress => "in_progress"
  | completed => "completed"
  | closed => "closed"
  end.

Definition all_statuses : list Status :=
  [pending; admin_review; approved; rejected; in_progress; completed; closed].

(** The value a string denotes in the [status] ENUM column, if any. *)
Definition status_of_string (s : string) : option Status :=
  List.find (fun st => String.eqb (status_name st) s) all_statuses.

Inductive Role : Set := employee | support_staff | manager | admin.

Global Instance Role_eq_dec : EqDecision Role.
Proof. solve_decision. Defined.

Inductive Decision : Set := d_pending | d_approved | d_rejected.

Global Instance Decision_eq_dec : EqDecision Decision.
Proof. solve_decision. Defined.

Inductive Action : Set :=
| a_created | a_updated | a_status_changed | a_assigned
| a_approved | a_rejected | a_commented | a_closed.

Global Instance Action_eq_dec : EqDecision Action.
Proof. solve_decision. Defined.

(** Content of the text columns [old_value] / [new_value] of the history:
    a status name or the key of a user. *)
Inductive FieldValue : Set :=
| VText (s : string)
| VUser (u : Uuid).

Global Instance FieldValue_eq_dec : EqDecision FieldValue.
Proof. solve_decision. Defined.

Record User := mkUser {
  u_role : Role;
  u_factory_id : string;
  u_is_active : bool
}.

Record Ticket := mkTicket {
  t_title : string;
  t_description : string;
  t_priority : string;
  t_status : Status;
  t_factory_id : string;
  t_requester_id : Uuid;
  t_assigned_to : option Uuid;
  t_urgency_level : Z;
  t_sla_deadline : option Z;
  t_created_at : Z;
  t_approved_at : option Z;
  t_assigned_at : option Z;
  t_resolved_at : option Z;
  t_closed_at : option Z
}.

Record TicketAssignment := mkAssignment {
  ta_ticket_id : Uuid;
  ta_assigned_to : Uuid;
  ta_assigned_by : Uuid;
  ta_assignment_reason : option string;
  ta_is_active : bool;
  ta_created_at : Z;
  ta_completed_at : option Z
}.

Record TicketApproval := mkApproval {
  tap_ticket_id : Uuid;
  tap_admin_id : Uuid;
  tap_decision : Decision;
  tap_reason : option string;
  tap_created_at : Z;
  tap_decided_at : option Z
}.

Record TicketHistory := mkHistory {
  th_ticket_id : Uuid;
  th_user_id : Uuid;
  th_action : Action;
  th_old_value : option FieldValue;
  th_new_value : option FieldValue;
  th_field_name : option string;
  th_comment : option string
}.

Record Notification := mkNotification {
  n_user_id : Uuid;
  n_type : string
}.

(** *** Ticket model methods *)

Definition isPending (t : Ticket) : bool := bool_decide (t_status t = pending).
Definition isAwaitingApproval (t : Ticket) : bool := bool_decide (t_status t = admin_review).
Definition isApproved (t : Ticket) : bool := bool_decide (t_status t = approved).
Definition isRejected (t : Ticket) : bool := bool_decide (t_status t = rejected).
Definition isInProgress (t : Ticket) : bool := bool_decide (t_status t = in_progress).
Definition isCompleted (t : Ticket) : bool := bool_decide (t_status t = completed).
Definition isClosed (t : Ticket) : bool := bool_decide (t_status t = closed).

(** [Ticket.isOverdue()], with [now] the value of [new Date()]. *)
Definition isOverdue (now : Z) (t : Ticket) : bool :=
  match t_sla_deadline t with
  | None => false
  | Some deadline =>
      if isCompleted t || isClosed t then false
      else bool_decide (deadline < now)
  end.

(** Setters standing for [instance.set({...})]. *)
Definition set_status (s : Status) (t : Ticket) : Ticket :=
  mkTicket (t_title t) (t_description t) (t_priority t) s
    (t_factory_id t) (t_requester_id t) (t_assigned_to t) (t_urgency_level t)
    (t_sla_deadline t) (t_created_at t) (t_approved_at t) (t_assigned_at t)
    (t_resolved_at t) (t_closed_at t).

Definition set_assigned_to (a : option Uuid) (t : Ticket) : Ticket :=
  mkTicket (t_title t) (t_description t) (t_priority t) (t_status t)
    (t_factory_id t) (t_requester_id t) a (t_urgency_level t)
    (t_sla_deadline t) (t_created_at t) (t_approved_at t) (t_assigned_at t)
    (t_resolved_at t) (t_closed_at t).

Definition deactivate (a : TicketAssignment) : TicketAssignment :=
  mkAssignment (ta_ticket_id a) (ta_assigned_to a) (ta_assigned_by a)
    (ta_assignment_reason a) false (ta_created_at a) (ta_completed_at a).

(** ** The store: the database tables *)

Record Store := mkStore {
  tickets : gmap positive Ticket;
  users : gmap positive User;
  factories : gset string;
  assignments : list TicketAssignment;
  approvals : list TicketApproval;
  history : list TicketHistory;
  notifications : list Notification
}.

Definition with_tickets (m : gmap positive Ticket) (s : Store) : Store :=
  mkStore m (users s) (factories s) (assignments s) (approvals s)
    (history s) (notifications s).

Definition with_assignments (l : list TicketAssignment) (s : Store) : Store :=
  mkStore (tickets s) (users s) (factories s) l (approvals s)
    (history s) (notifications s).

Definition with_approvals (l : list TicketApproval) (s : Store) : Store :=
  mkStore (tickets s) (users s) (factories s) (assignments s) l
    (history s) (notifications s).

Definition with_history (l : list TicketHistory) (s : Store) : Store :=
  mkStore (tickets s) (users s) (factories s) (assignments s) (approvals s)
    l (notifications s).

Definition with_notifications (l : list Notification) (s : Store) : Store :=
  mkStore (tickets s) (users s) (factories s) (assignments s) (approvals s)
    (history s) l.

(** [instance.update(values)]: sets the values on the instance held by the
    handler and writes the changed columns of its row.  The handler keeps
    working with the mutated instance.  (The update also rewrites the column
    [updated_at], which is not part of a row.) *)
Definition instance_update (f : Ticket -> Ticket) (id : Uuid) (inst : Ticket)
    (s : Store) : Ticket * Store :=
  (f inst, with_tickets (alter f id (tickets s)) s).

(** [TicketAssignment.update({is_active: false},
      {where: {ticket_id, is_active: true}})] *)
Definition deactivate_assignments (ticket_id : Uuid) (s : Store) : Store :=
  with_assignments
    (List.map (fun a =>
       if bool_decide (ta_ticket_id a = ticket_id) && ta_is_active a
       then deactivate a else a) (assignments s)) s.

(** [TicketAssignment.create({..., is_active: true})]; [created_at]
    defaults to the clock. *)
Definition create_assignment (now : Z) (ticket_id assigned_to assigned_by : Uuid)
    (reason : option string) (s : Store) : Store :=
  with_assignments
    (assignments s ++
       [mkAssignment ticket_id assigned_to assigned_by reason true now None]) s.

Definition create_history (h : TicketHistory) (s : Store) : Store :=
  with_history (history s ++ [h]) s.

Definition create_notification (user_id : Uuid) (type : string) (s : Store) : Store :=
  with_notifications (notifications s ++ [mkNotification user_id type]) s.

(** Rows of a table, as [findAll] sees them. *)
Definition ticket_rows (s : Store) : list (Uuid * Ticket) := map_to_list (tickets s).
Definition user_rows (s : Store) : list (Uuid * User) := map_to_list (users s).

(** [Ticket.count({where: {assigned_to: userId,
                           status: ['in_progress', 'approved']}})] *)
Definition count_active_tickets (user_id : Uuid) (s : Store) : nat :=
  length (List.filter (fun '(_, t) =>
    bool_decide (t_assigned_to t = Some user_id)
    && (bool_decide (t_status t = in_progress) || bool_decide (t_status t = approved)))
    (ticket_rows s)).

(** ** HTTP responses *)

Inductive Payload :=
| PNone
| PTicket (id : Uuid) (t : Ticket)
| PStatus (id : Uuid) (status : string)
| PAssigned (id : Uuid) (assigned_to : Uuid) (status : string)
| PReassigned (id : Uuid) (old_assigned_to new_assigned_to : Uuid)
| PAutoAssigned (assigned : list (Uuid * Uuid))
| PBulk (processed : list (Uuid * string)) (errors : list (Uuid * string)).

(** [res.status(code).json({success, message, data})] *)
Record Response := mkResponse {
  r_code : Z;
  r_success : bool;
  r_message : string;
  r_data : Payload
}.

Definition failure (code : Z) (message : string) : Response :=
  mkResponse code false message PNone.

(** The authenticated user of a request ([req.user]). *)
Record AuthUser := mkAuthUser {
  au_id : Uuid;
  au_role : Role;
  au_factory_id : string
}.

(** ** Ticket routes (routes/tickets.ts) *)

Definition VALID_STATUS_TRANSITIONS (s : Status) : list string :=
  match s with
  | pending => ["admin_review"]
  | admin_review => ["approved"; "rejected"]
  | approved => ["in_progress"]
  | rejected => []
  | in_progress => ["completed"]
  | completed => ["closed"]
  | closed => []
  end.

Definition isValidStatusTransition (currentStatus : Status) (newStatus : string) : bool :=
  existsb (String.eqb newStatus) (VALID_STATUS_TRANSITIONS currentStatus).

Definition createTicketHistory (ticketId userId : Uuid) (action : Action)
    (oldValue newValue : option FieldValue) (fieldName comment : option string)
    (s : Store) : Store :=
  create_history
    (mkHistory ticketId userId action oldValue newValue fieldName comment) s.

Definition createNotification (userId : Uuid) (type : string) (s : Store) : Store :=
  create_notification userId type s.

Definition checkTicketAccess (ticket : Ticket) (user : AuthUser) : bool :=
  match au_role user with
  | admin => true
  | manager => String.eqb (t_factory_id ticket) (au_factory_id user)
  | support_staff =>
      bool_decide (t_assigned_to ticket = Some (au_id user))
      || String.eqb (t_factory_id ticket) (au_factory_id user)
  | employee => bool_decide (t_requester_id ticket = au_id user)
  end.

(** [User.findAll({where: {role: 'admin'}})] followed by one notification
    for each admin. *)
Definition notify_admins (type : string) (s : Store) : Store :=
  fold_left (fun s '(id, _) => createNotification id type s)
    (List.filter (fun '(_, u) => bool_decide (u_role u = admin)) (user_rows s)) s.

Definition ticketPriority : list string := ["low"; "medium"; "high"; "critical"].

(** Body of [POST /api/tickets].  [None] is an absent field. *)
Record CreateBody := mkCreateBody {
  cb_title : option string;
  cb_description : option string;
  cb_priority : option string;
  cb_factory_id : option string;
  cb_urgency_level : option Z
}.

(** JavaScript truthiness of an optional string field. *)
Definition truthy (o : option string) : bool :=
  match o with
  | None => false
  | Some s => negb (String.eqb s "")
  end.

(** The handler of [router.post('/')]: create a ticket.  The primary key of
    the new row is a key not yet in the table.  The route with its
    middleware is [route_createTicket]. *)
Definition createTicket (tz now : Z) (user : AuthUser) (body : CreateBody)
    (s : Store) : Response * Store :=
  let title := cb_title body in
  let description := cb_description body in
  let priority := default "medium" (cb_priority body) in
  let factory_id := cb_factory_id body in
  let urgency_level := default 3 (cb_urgency_level body) in
  if negb (truthy title) || negb (truthy description) || negb (truthy factory_id) then
    (failure 400 "Title, description, and factory are required", s)
  else if negb (bool_decide (default "" factory_id ∈ factories s)) then
    (failure 404 "Factory not found", s)
  else
    let slaDeadline := calculateSLADeadline tz now priority (Some urgency_level) in
    if negb (bool_decide (priority ∈ ticketPriority)) then
      (* the ENUM column [priority] rejects the row *)
      (failure 500 "Internal server error", s)
    else
      let id := fresh (dom (tickets s)) in
      let ticket :=
        mkTicket (default "" title) (default "" description)
          priority pending (default "" factory_id) (au_id user) None urgency_level
          (Some slaDeadline) now None None None None in
      let s := with_tickets (<[id := ticket]> (tickets s)) s in
      let s := createTicketHistory id (au_id user) a_created
                 None (Some (VText "pending")) (Some "status") (Some "Ticket created") s in
      let s := notify_admins "ticket_created" s in
      (mkResponse 201 true "Ticket created successfully" (PTicket id ticket), s).

(** [router.put('/:id/status')]: update the status of a ticket. *)
Definition updateStatus (user : AuthUser) (id : Uuid)
    (status comment : option string) (s : Store) : Response * Store :=
  match status with
  | None | Some "" => (failure 400 "Status is required", s)
  | Some status =>
      match tickets s !! id with
      | None => (failure 404 "Ticket not found", s)
      | Some ticket =>
          if negb (checkTicketAccess ticket user) then
            (failure 403 "Access denied. You do not have permission to update this ticket.", s)
          else if negb (isValidStatusTransition (t_status ticket) status) then
            (failure 400 ("Invalid status transition from "
                          ++ status_name (t_status ticket) ++ " to " ++ status), s)
          else
            match status_of_string status with
            | None => (* the ENUM column [status] rejects the value *)
                (failure 500 "Internal server error", s)
            | Some st =>
                let '(ticket, s) := instance_update (set_status st) id ticket s in
                let s := createTicketHistory id (au_id user) a_status_changed
                           (Some (VText (status_name (t_status ticket))))
                           (Some (VText status)) (Some "status") comment s in
                let s :=
                  if String.eqb status "admin_review" then
                    notify_admins "ticket_review_required" s
                  else if String.eqb status "completed" then
                    createNotification (t_requester_id ticket) "ticket_completed" s
                  else s in
                (mkResponse 200 true "Ticket status updated successfully"
                   (PStatus id status), s)
            end
      end
  end.

(** The decision a request string denotes ([['approved', 'rejected']]). *)
Definition decision_of_string (d : string) : option Decision :=
  if String.eqb d "approved" then Some d_approved
  else if String.eqb d "rejected" then Some d_rejected
  else None.

Definition decision_status (d : Decision) : Status :=
  match d with
  | d_approved => approved
  | d_rejected => rejected
  | d_pending => pending
  end.

(** [TicketApproval.create({ticket_id, admin_id, decision, reason,
                            decided_at: new Date()})] *)
Definition create_approval (now : Z) (ticket_id admin_id : Uuid) (d : Decision)
    (reason : option string) (s : Store) : Store :=
  with_approvals
    (approvals s ++ [mkApproval ticket_id admin_id d reason now (Some now)]) s.

(** [router.post('/:id/approve')]: the admin decision. *)
Definition approveTicket (now : Z) (user : AuthUser) (id : Uuid)
    (decision reason : option string) (s : Store) : Response * Store :=
  match decision_of_string (default "" decision) with
  | None => (failure 400 "Valid decision (approved/rejected) is required", s)
  | Some d =>
      match tickets s !! id with
      | None => (failure 404 "Ticket not found", s)
      | Some ticket =>
          if negb (bool_decide (t_status ticket = admin_review)) then
            (failure 400 "Ticket is not in admin review status", s)
          else
            let '(ticket, s) :=
              instance_update (set_status (decision_status d)) id ticket s in
            let s := create_approval now id (au_id user) d reason s in
            let s := createTicketHistory id (au_id user)
                       (if bool_decide (d = d_approved) then a_approved else a_rejected)
                       (Some (VText "admin_review"))
                       (Some (VText (default "" decision))) (Some "status") reason s in
            let s := createNotification (t_requester_id ticket)
                       ("ticket_" ++ default "" decision) s in
            (mkResponse 200 true ("Ticket " ++ default "" decision ++ " successfully")
               (PStatus id (default "" decision)), s)
      end
  end.

Definition has_support_role (u : User) : bool :=
  bool_decide (u_role u = support_staff) || bool_decide (u_role u = manager).

(** [router.post('/:id/assign')]: assign a ticket to support staff. *)
Definition assignTicket (now : Z) (user : AuthUser) (id : Uuid)
    (assigned_to : option Uuid) (notes : option string) (s : Store)
    : Response * Store :=
  match assigned_to with
  | None => (failure 400 "Assigned user ID is required", s)
  | Some assigned_to =>
      match tickets s !! id with
      | None => (failure 404 "Ticket not found", s)
      | Some ticket =>
          if negb (bool_decide (t_status ticket = approved)) then
            (failure 400 "Only approved tickets can be assigned", s)
          else
            match users s !! assigned_to with
            | None =>
                (failure 400 "Invalid user or user does not have support permissions", s)
            | Some assignedUser =>
                if negb (has_support_role assignedUser) then
                  (failure 400 "Invalid user or user does not have support permissions", s)
                else
                  let s := deactivate_assignments id s in
                  let s := create_assignment now id assigned_to (au_id user) notes s in
                  let '(ticket, s) :=
                    instance_update
                      (fun t => set_status in_progress (set_assigned_to (Some assigned_to) t))
                      id ticket s in
                  let s := createTicketHistory id (au_id user) a_assigned
                             (VUser <$> t_assigned_to ticket)
                             (Some (VUser assigned_to)) (Some "assigned_to") notes s in
                  let s := createNotification assigned_to "ticket_assigned" s in
                  (mkResponse 200 true "Ticket assigned successfully"
                     (PAssigned id assigned_to "in_progress"), s)
            end
      end
  end.

(** ** Assignment routes (routes/assignments.ts) *)

Definition maxWorkload : nat := 10.

(** The handler of [router.post('/self-assign/:ticketId')]; the route with
    its role check is [route_selfAssign]. *)
Definition selfAssign (now : Z) (user : AuthUser) (ticketId : Uuid)
    (notes : option string) (s : Store) : Response * Store :=
  let userId := au_id user in
  match tickets s !! ticketId with
  | None => (failure 404 "Ticket not found", s)
  | Some ticket =>
      if negb (bool_decide (t_status ticket = approved)) then
        (failure 400 "Only approved tickets can be self-assigned", s)
      else if bool_decide (is_Some (t_assigned_to ticket)) then
        (failure 400 "Ticket is already assigned", s)
      else if bool_decide (au_role user = support_staff)
              && negb (String.eqb (t_factory_id ticket) (au_factory_id user)) then
        (failure 403 "You can only assign tickets from your factory", s)
      else
        let currentWorkload := count_active_tickets userId s in
        if bool_decide (maxWorkload ≤ currentWorkload)%nat then
          (failure 400 ("You have reached the maximum workload limit ("
                        ++ pretty maxWorkload ++ " active tickets)"), s)
        else
          let reason := if truthy notes then notes else Some "Self-assigned" in
          let s := create_assignment now ticketId userId userId reason s in
          let '(ticket, s) :=
            instance_update
              (fun t => set_status in_progress (set_assigned_to (Some userId) t))
              ticketId ticket s in
          let s := create_history
                     (mkHistory ticketId userId a_assigned None (Some (VUser userId))
                        (Some "assigned_to") reason) s in
          let s := create_notification (t_requester_id ticket) "ticket_assigned" s in
          (mkResponse 200 true "Ticket self-assigned successfully"
             (PAssigned ticketId userId "in_progress"), s)
  end.

(** [router.post('/reassign/:ticketId')] *)
Definition reassign (now : Z) (user : AuthUser) (ticketId : Uuid)
    (assigned_to : option Uuid) (reason : option string) (s : Store)
    : Response * Store :=
  match assigned_to with
  | None => (failure 400 "Assigned user ID is required", s)
  | Some assigned_to =>
      match tickets s !! ticketId with
      | None => (failure 404 "Ticket not found", s)
      | Some ticket =>
          match t_assigned_to ticket with
          | None => (failure 400 "Ticket is not currently assigned", s)
          | Some oldAssignedTo =>
              match users s !! assigned_to with
              | None =>
                  (failure 400 "Invalid user or user does not have support permissions", s)
              | Some newAssignee =>
                  if negb (has_support_role newAssignee) then
                    (failure 400 "Invalid user or user does not have support permissions", s)
                  else
                    let s := deactivate_assignments ticketId s in
                    let s := create_assignment now ticketId assigned_to (au_id user) reason s in
                    let '(ticket, s) :=
                      instance_update (set_assigned_to (Some assigned_to)) ticketId ticket s in
                    let s := create_history
                               (mkHistory ticketId (au_id user) a_assigned
                                  (Some (VUser oldAssignedTo)) (Some (VUser assigned_to))
                                  (Some "assigned_to") reason) s in
                    let s := create_notification oldAssignedTo "ticket_reassigned" s in
                    let s := create_notification assigned_to "ticket_assigned" s in
                    (mkResponse 200 true "Ticket reassigned successfully"
                       (PReassigned ticketId oldAssignedTo assigned_to), s)
              end
          end
      end
  end.

(** [router.post('/unassign/:ticketId')] *)
Definition unassign (user : AuthUser) (ticketId : Uuid) (reason : option string)
    (s : Store) : Response * Store :=
  match tickets s !! ticketId with
  | None => (failure 404 "Ticket not found", s)
  | Some ticket =>
      match t_assigned_to ticket with
      | None => (failure 400 "Ticket is not currently assigned", s)
      | Some oldAssignedTo =>
          let s := deactivate_assignments ticketId s in
          let '(ticket, s) :=
            instance_update (fun t => set_status approved (set_assigned_to None t))
              ticketId ticket s in
          let s := create_history
                     (mkHistory ticketId (au_id user) a_assigned
                        (Some (VUser oldAssignedTo)) None (Some "assigned_to") reason) s in
          let s := create_notification oldAssignedTo "ticket_unassigned" s in
          (mkResponse 200 true "Ticket unassigned successfully"
             (PStatus ticketId "approved"), s)
      end
  end.

(** *** Auto-assignment *)

(** Stable insertion sort: the model of [ORDER BY] and of [Array.sort]
    with a comparator; [le x y] says that [x] may stay before [y]. *)
Fixpoint insert_by {A} (le : A -> A -> bool) (x : A) (l : list A) : list A :=
  match l with
  | [] => [x]
  | y :: l' => if le x y then x :: l else y :: insert_by le x l'
  end.

Definition sort_by {A} (le : A -> A -> bool) (l : list A) : list A :=
  foldr (insert_by le) [] l.

(** [order: [['priority', 'DESC'], ['created_at', 'ASC']]].  The database is
    SQLite (config/database.ts), where the ENUM column [priority] is a TEXT
    column: it is ordered as a string, so that the descending order of the
    four priorities is medium, low, high, critical. *)
Definition ticket_order (a b : Uuid * Ticket) : bool :=
  match String.compare (t_priority a.2) (t_priority b.2) with
  | Gt => true
  | Eq => bool_decide (t_created_at a.2 ≤ t_created_at b.2)%Z
  | Lt => false
  end.

(** [Ticket.findAll({where: {factory_id, status: 'approved', assigned_to: null},
      order: [['priority', 'DESC'], ['created_at', 'ASC']],
      limit: max_assignments})] *)
Definition find_unassigned_tickets (factory_id : string) (max_assignments : nat)
    (s : Store) : list (Uuid * Ticket) :=
  take max_assignments
    (sort_by ticket_order
       (List.filter (fun '(_, t) =>
          String.eqb (t_factory_id t) factory_id
          && bool_decide (t_status t = approved)
          && bool_decide (t_assigned_to t = None)) (ticket_rows s))).

(** [User.findAll({where: {factory_id, role: ['support_staff', 'manager'],
                           is_active: true}})] *)
Definition find_support_staff (factory_id : string) (s : Store)
    : list (Uuid * User) :=
  List.filter (fun '(_, u) =>
    String.eqb (u_factory_id u) factory_id && has_support_role u && u_is_active u)
    (user_rows s).

(** An entry [{ staff, activeCount }] of [staffWorkload]. *)
Record StaffLoad := mkStaffLoad {
  staff : Uuid * User;
  activeCount : nat
}.

Definition bump (w : StaffLoad) : StaffLoad :=
  mkStaffLoad (staff w) (S (activeCount w)).

(** State of the allocation loop. *)
Record AutoLoop := mkAutoLoop {
  al_store : Store;
  al_staffWorkload : list StaffLoad;
  al_staffIndex : nat;
  al_assignments : list (Uuid * Uuid)
}.

(** One iteration of [for (const ticket of unassignedTickets)].  The
    lookup in [staffWorkload] cannot miss: the handler has returned before
    the loop when the array is empty. *)
Definition autoAssign_step (now : Z) (user : AuthUser) (st : AutoLoop)
    (ticket : Uuid * Ticket) : AutoLoop :=
  let staffWorkload := al_staffWorkload st in
  let staffIndex := al_staffIndex st in
  let i := (staffIndex mod length staffWorkload)%nat in
  match staffWorkload !! i with
  | None => st
  | Some entry =>
      let assignedStaff := staff entry in
      let s := al_store st in
      let s := create_assignment now ticket.1 assignedStaff.1 (au_id user)
                 (Some "Auto-assigned based on workload balancing") s in
      let '(_, s) :=
        instance_update
          (fun t => set_status in_progress (set_assigned_to (Some assignedStaff.1) t))
          ticket.1 ticket.2 s in
      let s := create_history
                 (mkHistory ticket.1 (au_id user) a_assigned None
                    (Some (VUser assignedStaff.1)) (Some "assigned_to")
                    (Some "Auto-assigned based on workload balancing")) s in
      let s := create_notification assignedStaff.1 "ticket_assigned" s in
      mkAutoLoop s (alter bump i staffWorkload) (S staffIndex)
        (al_assignments st ++ [(ticket.1, assignedStaff.1)])
  end.

(** [staffWorkload], sorted least busy first. *)
Definition initial_staffWorkload (supportStaff : list (Uuid * User)) (s : Store)
    : list StaffLoad :=
  sort_by (fun a b => bool_decide (activeCount a ≤ activeCount b)%nat)
    (List.map (fun u => mkStaffLoad u (count_active_tickets u.1 s)) supportStaff).

(** [router.post('/auto-assign')]; [max_assignments] defaults to 5. *)
Definition autoAssign (now : Z) (user : AuthUser) (factory_id : option string)
    (max_assignments : option nat) (s : Store) : Response * Store :=
  if negb (truthy factory_id) then (failure 400 "Factory ID is required", s)
  else
    let fid := default "" factory_id in
    let unassignedTickets := find_unassigned_tickets fid (default 5%nat max_assignments) s in
    match unassignedTickets with
    | [] => (mkResponse 200 true "No unassigned tickets found" (PAutoAssigned []), s)
    | _ =>
        let supportStaff := find_support_staff fid s in
        match supportStaff with
        | [] => (failure 400 "No available support staff found for this factory", s)
        | _ =>
            let st := fold_left (autoAssign_step now user) unassignedTickets
                        (mkAutoLoop s (initial_staffWorkload supportStaff s) 0 []) in
            (mkResponse 200 true
               ("Auto-assigned " ++ pretty (length (al_assignments st)) ++ " tickets")
               (PAutoAssigned (al_assignments st)), al_store st)
        end
    end.

(** ** Bulk decision (routes/admin.ts) *)

Record BulkLoop := mkBulkLoop {
  bl_store : Store;
  bl_results : list (Uuid * string);
  bl_errors : list (Uuid * string)
}.

(** One iteration of [for (const ticketId of ticket_ids)]. *)
Definition bulkApprove_step (now : Z) (user : AuthUser) (d : Decision)
    (decision : string) (reason : option string) (st : BulkLoop) (ticketId : Uuid)
    : BulkLoop :=
  let s := bl_store st in
  match tickets s !! ticketId with
  | None => mkBulkLoop s (bl_results st) (bl_errors st ++ [(ticketId, "Ticket not found")])
  | Some ticket =>
      if negb (bool_decide (t_status ticket = admin_review)) then
        mkBulkLoop s (bl_results st)
          (bl_errors st ++ [(ticketId, "Ticket is not in admin review status")])
      else
        let '(ticket, s) :=
          instance_update (set_status (decision_status d)) ticketId ticket s in
        let s := create_approval now ticketId (au_id user) d reason s in
        let s := create_history
                   (mkHistory ticketId (au_id user)
                      (if bool_decide (d = d_approved) then a_approved else a_rejected)
                      (Some (VText "admin_review")) (Some (VText decision))
                      (Some "status") reason) s in
        let s := create_notification (t_requester_id ticket) ("ticket_" ++ decision) s in
        mkBulkLoop s (bl_results st ++ [(ticketId, decision)]) (bl_errors st)
  end.

(** [router.post('/tickets/bulk-approve')] *)
Definition bulkApprove (now : Z) (user : AuthUser) (ticket_ids : list Uuid)
    (decision reason : option string) (s : Store) : Response * Store :=
  match ticket_ids with
  | [] => (failure 400 "Ticket IDs array is required", s)
  | _ =>
      match decision_of_string (default "" decision) with
      | None => (failure 400 "Valid decision (approved/rejected) is required", s)
      | Some d =>
          let st := fold_left (bulkApprove_step now user d (default "" decision) reason)
                      ticket_ids (mkBulkLoop s [] []) in
          (mkResponse 200 true ("Bulk " ++ default "" decision ++ " completed")
             (PBulk (bl_results st) (bl_errors st)), bl_store st)
      end
  end.

(** ** Requests and runs of the server *)

Inductive Request :=
| ReqCreate (body : CreateBody)
| ReqUpdateStatus (id : Uuid) (status comment : option string)
| ReqApprove (id : Uuid) (decision reason : option string)
| ReqBulkApprove (ticket_ids : list Uuid) (decision reason : option string)
| ReqAssign (id : Uuid) (assigned_to : option Uuid) (notes : option string)
| ReqSelfAssign (ticketId : Uuid) (notes : option string)
| ReqReassign (ticketId : Uuid) (assigned_to : option Uuid) (reason : option string)
| ReqUnassign (ticketId : Uuid) (reason : option string)
| ReqAutoAssign (factory_id : option string) (max_assignments : option nat).

(** A call: who asks, when, and what. *)
Record Call := mkCall {
  c_user : AuthUser;
  c_now : Z;
  c_request : Request
}.

Definition handle (tz : Z) (c : Call) (s : Store) : Response * Store :=
  let user := c_user c in
  let now := c_now c in
  match c_request c with
  | ReqCreate body => createTicket tz now user body s
  | ReqUpdateStatus id status comment => updateStatus user id status comment s
  | ReqApprove id decision reason => approveTicket now user id decision reason s
  | ReqBulkApprove ids decision reason => bulkApprove now user ids decision reason s
  | ReqAssign id assigned_to notes => assignTicket now user id assigned_to notes s
  | ReqSelfAssign id notes => selfAssign now user id notes s
  | ReqReassign id assigned_to reason => reassign now user id assigned_to reason s
  | ReqUnassign id reason => unassign user id reason s
  | ReqAutoAssign factory_id max_assignments =>
      autoAssign now user factory_id max_assignments s
  end.

(** The store after serving the calls one after the other. *)
Definition run (tz : Z) (cs : list Call) (s : Store) : Store :=
  fold_left (fun s c => (handle tz c s).2) cs s.

(** A new database: no ticket, no ledger row. *)
Definition empty_store (us : gmap positive User) (fs : gset string) : Store :=
  mkStore ∅ us fs [] [] [] [].

Local Open Scope nat_scope.

(** ** Remaining time (models/Ticket.ts) *)

(** [Ticket.getTimeRemaining()], with [now] the value of [new Date()];
    [None] is [null]. *)
Definition getTimeRemaining (now : Z) (t : Ticket) : option Z :=
  match t_sla_deadline t with
  | None => None
  | Some deadline =>
      if isCompleted t || isClosed t then None
      else Some (deadline - now)%Z
  end.

(** ** Permissions (middleware/auth.ts) *)

Inductive Resource : Set := res_tickets | res_users | res_reports.

Inductive PermAction : Set :=
| act_create | act_read | act_update | act_delete | act_approve | act_assign.

(** An entry of [PERMISSIONS]: a boolean, a list of scopes, or no entry. *)
Inductive Permission : Set :=
| perm_bool (b : bool)
| perm_scopes (l : list string)
| perm_undefined.

Definition resource_name (r : Resource) : string :=
  match r with
  | res_tickets => "tickets"
  | res_users => "users"
  | res_reports => "reports"
  end.

Definition action_name (a : PermAction) : string :=
  match a with
  | act_create => "create"
  | act_read => "read"
  | act_update => "update"
  | act_delete => "delete"
  | act_approve => "approve"
  | act_assign => "assign"
  end.

Definition PERMISSIONS (role : Role) (resource : Resource) (action : PermAction)
    : Permission :=
  match role, resource, action with
  | employee, res_tickets, act_create => perm_bool true
  | employee, res_tickets, act_read => perm_scopes ["own"]
  | employee, res_tickets, act_update => perm_scopes ["own"]
  | employee, res_tickets, act_delete => perm_bool false
  | employee, res_tickets, act_approve => perm_bool false
  | employee, res_tickets, act_assign => perm_bool false
  | employee, res_users, act_create => perm_bool false
  | employee, res_users, act_read => perm_scopes ["self"]
  | employee, res_users, act_update => perm_scopes ["self"]
  | employee, res_users, act_delete => perm_bool false
  | employee, res_reports, act_create => perm_bool false
  | employee, res_reports, act_read => perm_bool false
  | employee, res_reports, act_update => perm_bool false
  | employee, res_reports, act_delete => perm_bool false
  | support_staff, res_tickets, act_create => perm_bool true
  | support_staff, res_tickets, act_read => perm_scopes ["assigned"; "own"]
  | support_staff, res_tickets, act_update => perm_scopes ["assigned"; "own"]
  | support_staff, res_tickets, act_delete => perm_bool false
  | support_staff, res_tickets, act_approve => perm_bool false
  | support_staff, res_tickets, act_assign => perm_bool false
  | support_staff, res_users, act_create => perm_bool false
  | support_staff, res_users, act_read => perm_scopes ["self"; "basic"]
  | support_staff, res_users, act_update => perm_scopes ["self"]
  | support_staff, res_users, act_delete => perm_bool false
  | support_staff, res_reports, act_create => perm_bool false
  | support_staff, res_reports, act_read => perm_scopes ["assigned"]
  | support_staff, res_reports, act_update => perm_bool false
  | support_staff, res_reports, act_delete => perm_bool false
  | manager, res_tickets, act_create => perm_bool true
  | manager, res_tickets, act_read => perm_scopes ["department"; "own"]
  | manager, res_tickets, act_update => perm_scopes ["department"; "own"]
  | manager, res_tickets, act_delete => perm_bool false
  | manager, res_tickets, act_approve => perm_scopes ["department"]
  | manager, res_tickets, act_assign => perm_scopes ["department"]
  | manager, res_users, act_create => perm_bool false
  | manager, res_users, act_read => perm_scopes ["department"; "self"]
  | manager, res_users, act_update => perm_scopes ["self"]
  | manager, res_users, act_delete => perm_bool false
  | manager, res_reports, act_create => perm_bool true
  | manager, res_reports, act_read => perm_scopes ["department"]
  | manager, res_reports, act_update => perm_bool true
  | manager, res_reports, act_delete => perm_bool false
  | admin, res_tickets, act_create => perm_bool true
  | admin, res_tickets, act_read => perm_scopes ["all"]
  | admin, res_tickets, act_update => perm_scopes ["all"]
  | admin, res_tickets, act_delete => perm_bool true
  | admin, res_tickets, act_approve => perm_scopes ["all"]
  | admin, res_tickets, act_assign => perm_scopes ["all"]
  | admin, res_users, act_create => perm_bool true
  | admin, res_users, act_read => perm_scopes ["all"]
  | admin, res_users, act_update => perm_scopes ["all"]
  | admin, res_users, act_delete => perm_bool true
  | admin, res_reports, act_create => perm_bool true
  | admin, res_reports, act_read => perm_scopes ["all"]
  | admin, res_reports, act_update => perm_bool true
  | admin, res_reports, act_delete => perm_bool true
  | _, _, _ => perm_undefined
  end.

(** [hasPermission(userRole, resource, action, context?)] *)
Definition hasPermission (userRole : Role) (resource : Resource)
    (action : PermAction) (context : option string) : bool :=
  match PERMISSIONS userRole resource action with
  | perm_bool b => b
  | perm_scopes l =>
      if truthy context then existsb (String.eqb (default "" context)) l
      else bool_decide (0 < length l)
  | perm_undefined => false
  end.

(** [requirePermission(resource, action, context?)]: [None] is [next()]. *)
Definition requirePermission (resource : Resource) (action : PermAction)
    (context : option string) (user : AuthUser) : option Response :=
  if hasPermission (au_role user) resource action context then None
  else Some (failure 403 ("Access denied. Insufficient permissions for "
                          +:+ action_name action +:+ " on " +:+ resource_name resource)).

Definition canApproveTickets : AuthUser -> option Response :=
  requirePermission res_tickets act_approve None.
Definition canAssignTickets : AuthUser -> option Response :=
  requirePermission res_tickets act_assign None.

(** A route: its permission middleware, then its handler. *)
Definition guarded (mw : AuthUser -> option Response) (user : AuthUser)
    (handler : Store -> Response * Store) (s : Store) : Response * Store :=
  match mw user with
  | Some refusal => (refusal, s)
  | None => handler s
  end.

(** [router.post('/:id/approve', authenticateToken, canApproveTickets, ...)] *)
Definition route_approve (now : Z) (user : AuthUser) (id : Uuid)
    (decision reason : option string) : Store -> Response * Store :=
  guarded canApproveTickets user (approveTicket now user id decision reason).

(** [router.post('/:id/assign', authenticateToken, canAssignTickets, ...)] *)
Definition route_assign (now : Z) (user : AuthUser) (id : Uuid)
    (assigned_to : option Uuid) (notes : option string) : Store -> Response * Store :=
  guarded canAssignTickets user (assignTicket now user id assigned_to notes).

Definition role_name (r : Role) : string :=
  match r with
  | employee => "employee"
  | support_staff => "support_staff"
  | manager => "manager"
  | admin => "admin"
  end.

(** [authorizeRoles(...roles)], for an authenticated request. *)
Definition authorizeRoles (roles : list Role) (user : AuthUser) : option Response :=
  if bool_decide (au_role user ∈ roles) then None
  else Some (failure 403 ("Access denied. Required roles: "
                          +:+ String.concat ", " (role_name <$> roles))).

Definition supportStaffOrAdmin : AuthUser -> option Response :=
  authorizeRoles [support_staff; admin; manager].

(** [router.post('/self-assign/:ticketId', authenticateToken,
      supportStaffOrAdmin, ...)] *)
Definition route_selfAssign (now : Z) (user : AuthUser) (ticketId : Uuid)
    (notes : option string) : Store -> Response * Store :=
  guarded supportStaffOrAdmin user (selfAssign now user ticketId notes).





(** ** Comments (routes/tickets.ts) *)

Record TicketComment := mkComment {
  tc_ticket_id : Uuid;
  tc_user_id : Uuid;
  tc_content : string;
  tc_is_internal : bool
}.

(** [content.substring(0, 100) + (content.length > 100 ? '...' : '')]; the
    characters of [content] are its UTF-16 code units. *)
Definition comment_excerpt (content : string) : string :=
  String.substring 0 100 content
  +:+ (if bool_decide (100 < String.length content) then "..." else "").

(** [router.post('/:id/comments')]: the comment table is threaded beside the
    store; [is_internal] defaults to [false].  After its writes the handler
    reads the comment back with [include: {model: User, as: 'commentUser'}];
    the association of [TicketComment] and [User] is declared with the alias
    [user] (models/TicketComment.ts), so the query throws and the handler
    answers 500 from its [catch], with the rows already written. *)
Definition addComment (user : AuthUser) (id : Uuid) (content : option string)
    (is_internal : option bool) (s : Store) (comments : list TicketComment)
    : Response * Store * list TicketComment :=
  let is_internal := default false is_internal in
  if negb (truthy content) then
    (failure 400 "Comment content is required", s, comments)
  else
    let content := default "" content in
    match tickets s !! id with
    | None => (failure 404 "Ticket not found", s, comments)
    | Some ticket =>
        if negb (checkTicketAccess ticket user) then
          (failure 403 "Access denied. You do not have permission to comment on this ticket.",
           s, comments)
        else
          let isInternalComment :=
            is_internal
            && (bool_decide (au_role user = support_staff)
                || bool_decide (au_role user = admin)
                || bool_decide (au_role user = manager)) in
          let comments :=
            (comments ++ [mkComment id (au_id user) content isInternalComment])%list in
          let s := createTicketHistory id (au_id user) a_commented None
                     (Some (VText (comment_excerpt content))) (Some "comment") None s in
          let s :=
            if negb isInternalComment then
              let notifyUserId :=
                if bool_decide (t_requester_id ticket = au_id user)
                then t_assigned_to ticket else Some (t_requester_id ticket) in
              match notifyUserId with
              | Some uid => createNotification uid "new_comment" s
              | None => s
              end
            else s in
          (failure 500 "Internal server error", s, comments)
    end.

(** ** Ticket list (routes/tickets.ts) *)

(** The query parameters that reach the where clause. *)
Record ListQuery := mkListQuery {
  q_status : option string;
  q_priority : option string;
  q_factory_id : option string;
  q_assigned_to : option Uuid;
  q_search : option string
}.

(** One condition of an [Op.or] alternative. *)
Inductive Cond :=
| c_assigned_to (v : option Uuid)
| c_factory_id (v : string)
| c_status_in (l : list Status)
| c_title_ilike (pattern : string)
| c_description_ilike (pattern : string)
| c_ticket_number_ilike (pattern : string).

(** The [whereClause] object: each key is present at most once, and
    assigning to a key replaces what it held. *)
Record WhereClause := mkWhere {
  w_requester_id : option Uuid;
  w_factory_id : option string;
  w_status : option string;
  w_priority : option string;
  w_assigned_to : option Uuid;
  w_or : option (list (list Cond))
}.

Definition set_w_requester_id (v : Uuid) (w : WhereClause) : WhereClause :=
  mkWhere (Some v) (w_factory_id w) (w_status w) (w_priority w) (w_assigned_to w) (w_or w).
Definition set_w_factory_id (v : string) (w : WhereClause) : WhereClause :=
  mkWhere (w_requester_id w) (Some v) (w_status w) (w_priority w) (w_assigned_to w) (w_or w).
Definition set_w_status (v : string) (w : WhereClause) : WhereClause :=
  mkWhere (w_requester_id w) (w_factory_id w) (Some v) (w_priority w) (w_assigned_to w) (w_or w).
Definition set_w_priority (v : string) (w : WhereClause) : WhereClause :=
  mkWhere (w_requester_id w) (w_factory_id w) (w_status w) (Some v) (w_assigned_to w) (w_or w).
Definition set_w_assigned_to (v : Uuid) (w : WhereClause) : WhereClause :=
  mkWhere (w_requester_id w) (w_factory_id w) (w_status w) (w_priority w) (Some v) (w_or w).
Definition set_w_or (v : list (list Cond)) (w : WhereClause) : WhereClause :=
  mkWhere (w_requester_id w) (w_factory_id w) (w_status w) (w_priority w)
    (w_assigned_to w) (Some v).

(** The where clause that [router.get('/')] hands to [findAndCountAll]. *)
Definition ticketsWhere (user : AuthUser) (q : ListQuery) : WhereClause :=
  let whereClause := mkWhere None None None None None None in
  let whereClause :=
    match au_role user with
    | employee => set_w_requester_id (au_id user) whereClause
    | support_staff =>
        set_w_or [ [c_assigned_to (Some (au_id user))];
                   [c_factory_id (au_factory_id user); c_assigned_to None;
                    c_status_in [approved; in_progress]] ] whereClause
    | manager => set_w_factory_id (au_factory_id user) whereClause
    | admin => whereClause
    end in
  let whereClause :=
    if truthy (q_status q) then set_w_status (default "" (q_status q)) whereClause
    else whereClause in
  let whereClause :=
    if truthy (q_priority q) then set_w_priority (default "" (q_priority q)) whereClause
    else whereClause in
  let whereClause :=
    if truthy (q_factory_id q) && bool_decide (au_role user = admin)
    then set_w_factory_id (default "" (q_factory_id q)) whereClause
    else whereClause in
  let whereClause :=
    match q_assigned_to q with
    | Some a =>
        if hasPermission (au_role user) res_tickets act_read (Some "all")
        then set_w_assigned_to a whereClause else whereClause
    | None => whereClause
    end in
  if truthy (q_search q) then
    let pattern := "%" +:+ default "" (q_search q) +:+ "%" in
    set_w_or [ [c_title_ilike pattern]; [c_description_ilike pattern];
               [c_ticket_number_ilike pattern] ] whereClause
  else whereClause.

(** Rows selected by a where clause on a database that evaluates it: the
    keys are conjoined, the alternatives of [Op.or] disjoined.  [ilike] is
    the database's case-insensitive pattern match and [number] the row's
    [ticket_number] column.  SQLite, the configured database, has no ILIKE
    operator: there a clause with a search alternative makes the query fail
    and the route answer 500. *)
Definition cond_matches (ilike : string -> string -> bool) (number : string)
    (t : Ticket) (c : Cond) : bool :=
  match c with
  | c_assigned_to v => bool_decide (t_assigned_to t = v)
  | c_factory_id v => String.eqb (t_factory_id t) v
  | c_status_in l => bool_decide (t_status t ∈ l)
  | c_title_ilike p => ilike (t_title t) p
  | c_description_ilike p => ilike (t_description t) p
  | c_ticket_number_ilike p => ilike number p
  end.

Definition where_matches (ilike : string -> string -> bool) (w : WhereClause)
    (number : string) (t : Ticket) : bool :=
  from_option (fun v => bool_decide (t_requester_id t = v)) true (w_requester_id w)
  && from_option (String.eqb (t_factory_id t)) true (w_factory_id w)
  && from_option (String.eqb (status_name (t_status t))) true (w_status w)
  && from_option (String.eqb (t_priority t)) true (w_priority w)
  && from_option (fun v => bool_decide (t_assigned_to t = Some v)) true (w_assigned_to w)
  && from_option (existsb (forallb (cond_matches ilike number t))) true (w_or w).

(** ** Assignment dashboard and team workload (routes/assignments.ts) *)

Record WorkloadStats := mkWorkloadStats {
  ws_active : nat;
  ws_high_priority : nat;
  ws_overdue : nat
}.

Record Dashboard := mkDashboard {
  d_assignedTickets : list (Uuid * Ticket);
  d_availableTickets : list (Uuid * Ticket);
  d_workloadStats : WorkloadStats
}.

(** [new Date() > new Date(t.sla_deadline)]; [new Date(null)] is the epoch. *)
Definition past_deadline (now : Z) (t : Ticket) : bool :=
  bool_decide (default 0 (t_sla_deadline t) < now)%Z.

Definition high_or_critical (t : Ticket) : bool :=
  String.eqb (t_priority t) "high" || String.eqb (t_priority t) "critical".

(** The handler of [router.get('/dashboard')]. *)
Definition assignmentDashboard (now : Z) (user : AuthUser) (s : Store) : Dashboard :=
  let userId := au_id user in
  let userRole := au_role user in
  let assignedTickets :=
    sort_by ticket_order
      (List.filter (fun '(_, t) =>
         bool_decide (t_assigned_to t = Some userId)
         && (bool_decide (t_status t = in_progress) || bool_decide (t_status t = approved)))
         (ticket_rows s)) in
  let availableTickets :=
    if bool_decide (userRole = support_staff) then
      find_unassigned_tickets (au_factory_id user) 10 s
    else if bool_decide (userRole = admin) || bool_decide (userRole = manager) then
      take 20
        (sort_by ticket_order
           (List.filter (fun '(_, t) =>
              bool_decide (t_status t = approved)
              && bool_decide (t_assigned_to t = None)) (ticket_rows s)))
    else [] in
  let workloadStats :=
    mkWorkloadStats
      (length assignedTickets)
      (length (List.filter (fun '(_, t) => high_or_critical t) assignedTickets))
      (length (List.filter (fun '(_, t) => past_deadline now t) assignedTickets)) in
  mkDashboard assignedTickets availableTickets workloadStats.





Local Close Scope nat_scope.

(** * Specification-level definitions *)


(** The hours that the calculator adds to the local clock. *)
Definition slaHours (priority : string) : Z :=
  if String.eqb priority "critical" then 2
  else if String.eqb priority "high" then 8
  else if String.eqb priority "low" then 72
  else 24.

(** Between [createdAt] and [h] hours of local clock later the zone keeps
    its offset, and [createdAt] plus [h] hours is a time value. *)
Definition steady (zone : HostDate.Zone) (createdAt h : Z) : Prop :=
  HostDate.localOffset zone (createdAt + HostDate.utcOffset zone createdAt + h * 3600000)
  = HostDate.utcOffset zone createdAt
  ∧ (Z.abs (createdAt + h * 3600000) ≤ HostDate.maxTime)%Z.

(** The transition table of the specification (section 4.1). *)
Inductive spec_edge : Status -> Status -> Prop :=
| edge_pending : spec_edge pending admin_review
| edge_review_approved : spec_edge admin_review approved
| edge_review_rejected : spec_edge admin_review rejected
| edge_approved : spec_edge approved in_progress
| edge_in_progress : spec_edge in_progress completed
| edge_completed : spec_edge completed closed.

(** The assignment ledger after [deactivate_assignments]. *)
Definition deactivate_list (id : Uuid) (l : list TicketAssignment)
    : list TicketAssignment :=
  List.map (fun a =>
    if bool_decide (ta_ticket_id a = id) && ta_is_active a
    then deactivate a else a) l.

(** The elementary changes of the tickets, the assignment ledger and the
    approval ledger: nothing, a new pending ticket, a move along an edge of
    the table, a decision with its approval record, an assignment with its
    active record (after deactivating the former records, or on a ticket
    without assignee), and an unassignment. *)
Inductive change (s s' : Store) : Prop :=
| ch_frame :
    tickets s' = tickets s → assignments s' = assignments s →
    approvals s' = approvals s → change s s'
| ch_create (id : Uuid) (t : Ticket) :
    tickets s !! id = None → t_status t = pending → t_assigned_to t = None →
    tickets s' = <[id := t]> (tickets s) → assignments s' = assignments s →
    approvals s' = approvals s → change s s'
| ch_status (id : Uuid) (t : Ticket) (st : Status) :
    tickets s !! id = Some t → spec_edge (t_status t) st →
    tickets s' = alter (set_status st) id (tickets s) →
    assignments s' = assignments s → approvals s' = approvals s → change s s'
| ch_decide (id : Uuid) (t : Ticket) (ap : TicketApproval) :
    tickets s !! id = Some t → t_status t = admin_review →
    tap_ticket_id ap = id → tap_decision ap ≠ d_pending →
    tickets s' = alter (set_status (decision_status (tap_decision ap))) id (tickets s) →
    assignments s' = assignments s → approvals s' = (approvals s ++ [ap])%list →
    change s s'
| ch_assign (id : Uuid) (t : Ticket) (f : Ticket -> Ticket)
    (a : TicketAssignment) (deact : bool) :
    tickets s !! id = Some t →
    (deact = true ∨ t_assigned_to t = None) →
    ta_ticket_id a = id → ta_is_active a = true →
    t_assigned_to (f t) = Some (ta_assigned_to a) →
    (t_status (f t) = t_status t ∨ t_status (f t) = in_progress) →
    tickets s' = alter f id (tickets s) →
    assignments s' =
      ((if deact then deactivate_list id (assignments s) else assignments s) ++ [a])%list →
    approvals s' = approvals s → change s s'
| ch_unassign (id : Uuid) (t : Ticket) (f : Ticket -> Ticket) :
    tickets s !! id = Some t →
    t_assigned_to (f t) = None → t_status (f t) = approved →
    tickets s' = alter f id (tickets s) →
    assignments s' = deactivate_list id (assignments s) →
    approvals s' = approvals s → change s s'.

(** Sequences of elementary changes. *)
Definition changes : Store -> Store -> Prop := rtc change.

(** The rows of a ledger that are active for a ticket. *)
Definition active_in (id : Uuid) (l : list TicketAssignment) : list TicketAssignment :=
  List.filter (fun a => bool_decide (ta_ticket_id a = id) && ta_is_active a) l.

(** The active assignment records of a ticket. *)
Definition active_records (id : Uuid) (s : Store) : list TicketAssignment :=
  active_in id (assignments s).

(** At most one active record for each ticket, and [assigned_to] is the
    assignee of that record, or NULL when there is none; no active record
    hangs on a missing ticket. *)
Definition ledger_consistent (s : Store) : Prop :=
  ∀ id,
    match tickets s !! id with
    | Some t =>
        (length (active_records id s) ≤ 1)%nat
        ∧ t_assigned_to t = ta_assigned_to <$> head (active_records id s)
    | None => active_records id s = []
    end.

(** The approval records of a ticket. *)
Definition approvals_for (id : Uuid) (s : Store) : list TicketApproval :=
  List.filter (fun a => bool_decide (tap_ticket_id a = id)) (approvals s).

(** A ticket has at most one approval record, and none before it has been
    decided; no record hangs on a missing ticket. *)
Definition approvals_consistent (s : Store) : Prop :=
  ∀ id,
    match tickets s !! id with
    | Some t =>
        (length (approvals_for id s) ≤ 1)%nat
        ∧ (t_status t = pending ∨ t_status t = admin_review → approvals_for id s = [])
    | None => approvals_for id s = []
    end.

(** ** Counting the allocations of a batch *)

Local Open Scope nat_scope.

(** The keys of the staff in [staffWorkload], in the order of the array. *)
Definition staff_ids (w : list StaffLoad) : list Uuid :=
  (fun e => (staff e).1) <$> w.

(** The staff drawn at the positions [start], ..., [start + n - 1] of the
    round robin. *)
Definition round_robin (ids : list Uuid) (start n : nat) : list Uuid :=
  omap (fun k => ids !! (k mod length ids)) (seq start n).

(** Number of occurrences of a key in a list. *)
Definition occ (u : Uuid) (l : list Uuid) : nat :=
  length (List.filter (fun x => bool_decide (x = u)) l).

(** Number of tickets of the batch that the response gives to [u]. *)
Definition received (u : Uuid) (resp : Response) : nat :=
  match r_data resp with
  | PAutoAssigned assigned => occ u assigned.*2
  | _ => 0
  end.

(** ceil(n / m) *)
Definition ceil_div (n m : nat) : nat := (n + m - 1) / m.

Local Close Scope nat_scope.

(** ** Later states of the store, and the rows of a batch *)

Local Open Scope nat_scope.

(** The columns of a row other than [status] and [assigned_to]. *)
Definition ticket_core (t : Ticket) : Ticket :=
  set_status pending (set_assigned_to None t).

(** A row of the assignment ledger is kept as it is, or deactivated. *)
Definition row_kept (a a' : TicketAssignment) : Prop :=
  a' = a ∨ (ta_is_active a = true ∧ a' = deactivate a).

(** The ledger [l'] extends [l]: the rows of [l] are kept or deactivated,
    in place, and new rows follow them. *)
Definition ledger_extends (l l' : list TicketAssignment) : Prop :=
  ∃ l1 l2, l' = (l1 ++ l2)%list ∧ Forall2 row_kept l l1.

(** Every ticket is still there, with the same unwritten columns. *)
Definition tickets_kept (m m' : gmap positive Ticket) : Prop :=
  ∀ id t, m !! id = Some t → ∃ t', m' !! id = Some t' ∧ ticket_core t' = ticket_core t.

(** The store [s'] is a later state of [s]. *)
Definition evolves (s s' : Store) : Prop :=
  users s' = users s
  ∧ factories s' = factories s
  ∧ tickets_kept (tickets s) (tickets s')
  ∧ ledger_extends (assignments s) (assignments s')
  ∧ approvals s `prefix_of` approvals s'
  ∧ history s `prefix_of` history s'
  ∧ notifications s `prefix_of` notifications s'.

(** The rows that [find_unassigned_tickets] selects from, before the limit. *)
Definition eligible_tickets (factory_id : string) (s : Store) : list (Uuid * Ticket) :=
  List.filter (fun '(_, t) =>
    String.eqb (t_factory_id t) factory_id
    && bool_decide (t_status t = approved)
    && bool_decide (t_assigned_to t = None)) (ticket_rows s).

(** The pairs (ticket, assignee) of an auto-assignment response. *)
Definition assigned_pairs (resp : Response) : list (Uuid * Uuid) :=
  match r_data resp with
  | PAutoAssigned assigned => assigned
  | _ => []
  end.

Local Close Scope nat_scope.

(** ** Example data *)

(** The zone of New York around 10 March 2024: five hours behind UTC until
    07:00 UTC of that day, four hours behind from then on; the local times
    from 02:00 to 03:00, which the clock skips, take the former offset. *)
Definition new_york_2024 : HostDate.Zone :=
  HostDate.mkZone
    (fun t => if bool_decide (t < 1710054000000)%Z then -18000000 else -14400000)
    (fun t => if bool_decide (t < 1710054000000 - 14400000)%Z
              then -18000000 else -14400000).

Definition demo_users : gmap positive User :=
  <[1%positive := mkUser admin "HRF" true]>
    (<[2%positive := mkUser support_staff "HRF" true]>
       (<[3%positive := mkUser employee "HRF" true]>
          (<[4%positive := mkUser manager "HRF" true]> ∅))).

Definition demo_admin : AuthUser := mkAuthUser 1 admin "HRF".
Definition demo_staff : AuthUser := mkAuthUser 2 support_staff "HRF".
Definition demo_employee : AuthUser := mkAuthUser 3 employee "HRF".

Definition demo_store : Store := empty_store demo_users {["HRF"]}.

(** A store holding ticket 1 and the demo users. *)
Definition store_with (t : Ticket) : Store :=
  mkStore {[1%positive := t]} demo_users {["HRF"]} [] [] [] [].

Definition pending_ticket : Ticket :=
  mkTicket "Broken lathe" "The lathe in hall 2 does not start" "medium" pending
    "HRF" 3 None 3 (Some 86400003) 0 None None None None.

Definition review_ticket : Ticket :=
  mkTicket "Broken lathe" "The lathe in hall 2 does not start" "medium" admin_review
    "HRF" 3 None 3 (Some 86400003) 0 None None None None.

Definition approved_ticket : Ticket :=
  mkTicket "Broken lathe" "The lathe in hall 2 does not start" "medium" approved
    "HRF" 3 None 3 (Some 86400003) 0 None None None None.

Definition rejected_ticket : Ticket :=
  mkTicket "Broken lathe" "The lathe in hall 2 does not start" "high" rejected
    "HRF" 3 None 3 (Some 1000) 0 None None None None.

Definition critical_body : CreateBody :=
  mkCreateBody (Some "Press stopped") (Some "The hydraulic press stopped at noon")
    (Some "critical") (Some "HRF") None.

(** Assign ticket 1 to user 2, reassign it to user 4, then try to reassign
    it to user 3, an employee, which is refused. *)
Definition demo_assignment_calls : list Call :=
  [ mkCall demo_admin 100 (ReqAssign 1 (Some 2%positive) None);
    mkCall demo_admin 200 (ReqReassign 1 (Some 4%positive) (Some "on leave"));
    mkCall demo_admin 300 (ReqReassign 1 (Some 3%positive) (Some "wrong role")) ].

Local Open Scope nat_scope.

Definition staff_only_users : gmap positive User :=
  <[1%positive := mkUser admin "HRF" true]>
    (<[2%positive := mkUser support_staff "HRF" true]>
       (<[3%positive := mkUser employee "HRF" true]> ∅)).

Definition busy_ticket : Ticket :=
  mkTicket "Conveyor belt" "The conveyor belt of line 4 slips" "high" in_progress
    "HRF" 3 (Some 2%positive) 3 (Some 28800003%Z) 0 None None None None.

(** A store in which user 2, the only support staff of HRF, already holds
    ten active tickets (1 to 10); tickets 11, 12 and 13 are approved and
    unassigned. *)
Definition capped_store : Store :=
  mkStore
    (list_to_map
       (((fun i => (Pos.of_nat i, busy_ticket)) <$> seq 1 10)
        ++ [(11%positive, approved_ticket); (12%positive, approved_ticket);
            (13%positive, approved_ticket)]))
    staff_only_users {["HRF"]} [] [] [] [].

(** Five approved tickets shared among the two support staff of the demo
    users: three for one, two for the other. *)
Definition batch_store : Store :=
  mkStore
    (list_to_map ((fun i => (Pos.of_nat i, approved_ticket)) <$> seq 1 5))
    demo_users {["HRF"]} [] [] [] [].

Local Close Scope nat_scope.

Local Open Scope nat_scope.


(** A store holding ticket 1 with its active assignment to user 2;
    user 5 is a support staff of another factory whose account is
    deactivated. *)
Definition assigned_store (t : Ticket) : Store :=
  mkStore {[1%positive := t]}
    (<[5%positive := mkUser support_staff "MVF" false]> demo_users) {["HRF"; "MVF"]}
    [mkAssignment 1 2 1 None true 50 None] [] [] [].

(** A store with a low and a critical ticket, both approved, created at
    times 10 and 20. *)
Definition priority_store : Store :=
  mkStore
    (<[1%positive :=
         mkTicket "Door handle" "The door handle of room 12 is loose" "low" approved
           "HRF" 3 None 3 (Some 259200003%Z) 10 None None None None]>
       {[2%positive :=
           mkTicket "Gas leak" "Smell of gas near furnace number 3" "critical" approved
             "HRF" 3 None 3 (Some 7200003%Z) 20 None None None None]})
    demo_users {["HRF"]} [] [] [] [].

(** A store in which user 2 holds ten active tickets and user 4, a manager
    of the same factory, none; tickets 11, 12 and 13 are approved and
    unassigned. *)
Definition uneven_store : Store :=
  mkStore (tickets capped_store) demo_users {["HRF"]} [] [] [] [].

(** A ticket of factory MVF in admin_review, in a store whose manager
    (user 4) belongs to factory HRF. *)
Definition foreign_review_ticket : Ticket :=
  mkTicket "Paint booth" "The paint booth fan makes a grinding noise" "medium"
    admin_review "MVF" 3 None 3 (Some 86400003%Z) 0 None None None None.

Definition demo_manager : AuthUser := mkAuthUser 4 manager "HRF".

(** A pattern match for the examples: [%] stands for any run of characters,
    every other character for itself. *)
Fixpoint simple_like (s p : string) : bool :=
  match p with
  | EmptyString => match s with EmptyString => true | _ => false end
  | String c p' =>
      if Ascii.eqb c (Ascii.ascii_of_nat 37) then
        (fix skip (s : string) : bool :=
           simple_like s p'
           || match s with EmptyString => false | String _ s' => skip s' end) s
      else
        match s with
        | EmptyString => false
        | String d s' => Ascii.eqb c d && simple_like s' p'
        end
  end.

Local Close Scope nat_scope.

(** * Properties *)

(** ** SLA calculator *)

Lemma setHours_getHours_add (tz d k : Z) :
  JsDate.setHours tz d (JsDate.getHours tz d + k) = d + k * JsDate.msPerHour.
Proof.
  unfold JsDate.setHours, JsDate.getHours, JsDate.MakeDate, JsDate.MakeTime,
    JsDate.UTC, JsDate.LocalTime, JsDate.Day, JsDate.HourFromTime,
    JsDate.MinFromTime, JsDate.SecFromTime, JsDate.msFromTime,
    JsDate.msPerDay, JsDate.msPerHour, JsDate.msPerMinute, JsDate.msPerSecond.
  Z.to_euclidean_division_equations. lia.
Qed.

Lemma HostDate_setHours_getHours (zone : HostDate.Zone) (t h : Z) :
  HostDate.setHours zone (Some t)
    ((fun x => x + h) <$> HostDate.getHours zone (Some t))
  = HostDate.TimeClip
      (t + h * 3600000
       - (HostDate.localOffset zone (t + HostDate.utcOffset zone t + h * 3600000)
          - HostDate.utcOffset zone t)).
Proof.
  unfold HostDate.setHours, HostDate.getHours, HostDate.UTC, HostDate.LocalTime.
  cbn [fmap option_fmap option_map].
  set (loc := t + HostDate.utcOffset zone t).
  assert (JsDate.MakeDate (JsDate.Day loc)
            (JsDate.MakeTime (JsDate.HourFromTime loc + h) (JsDate.MinFromTime loc)
               (JsDate.SecFromTime loc) (JsDate.msFromTime loc))
          = loc + h * 3600000) as ->.
  { unfold JsDate.MakeDate, JsDate.MakeTime, JsDate.Day, JsDate.HourFromTime,
      JsDate.MinFromTime, JsDate.SecFromTime, JsDate.msFromTime,
      JsDate.msPerDay, JsDate.msPerHour, JsDate.msPerMinute, JsDate.msPerSecond.
    Z.to_euclidean_division_equations. lia. }
  subst loc. f_equal. lia.
Qed.

Lemma TimeClip_Some (t : Z) :
  (Z.abs t ≤ HostDate.maxTime)%Z → HostDate.TimeClip t = Some t.
Proof. intros H. unfold HostDate.TimeClip. by rewrite bool_decide_eq_true_2. Qed.

Lemma steady_deadline (zone : HostDate.Zone) (t h : Z) :
  (Z.abs t ≤ HostDate.maxTime)%Z → steady zone t h →
  HostDate.setHours zone (HostDate.TimeClip t)
    ((fun x => x + h) <$> HostDate.getHours zone (HostDate.TimeClip t))
  = Some (t + h * 3600000).
Proof.
  intros Ht [Hoff Hrange]. rewrite (TimeClip_Some t Ht), HostDate_setHours_getHours.
  rewrite Hoff, Z.sub_diag, Z.sub_0_r. by apply TimeClip_Some.
Qed.

(** The calculator of the create route is the calculator of a host whose
    zone has a fixed offset, as long as the time values are in range. *)
Lemma calculateSLADeadline_fixedZone (tz now : Z) (priority : string)
    (createdAt : option Z) :
  (Z.abs (default now createdAt) ≤ HostDate.maxTime)%Z →
  calculateSLADeadlineIn (HostDate.fixedZone tz) now priority createdAt
  = HostDate.TimeClip (calculateSLADeadline tz now priority createdAt).
Proof.
  intros Ht. unfold calculateSLADeadlineIn, calculateSLADeadline.
  rewrite (TimeClip_Some _ Ht).
  repeat case_match; rewrite HostDate_setHours_getHours, setHours_getHours_add;
    cbn [HostDate.fixedZone HostDate.localOffset HostDate.utcOffset]; f_equal;
    unfold JsDate.msPerHour; lia.
Qed.

(** C9, amended.  [calculateSLADeadline] does not read the clock when
    [createdAt] is given, but it depends on the zone of the host: it moves
    the local clock forward by 2 hours for critical, 8 for high, 24 for
    medium, 72 for low and 24 for every other priority.  It returns
    [createdAt] plus exactly that many hours when the zone has the same
    offset at both ends and the sum is a time value; in general the elapsed
    time is that many hours less the change of the offset, and the result is
    an Invalid Date when it leaves the range of time values. *)
Theorem calculateSLADeadline_offsets (zone : HostDate.Zone) (now : Z)
    (priority : string) (createdAt : Z) :
  (Z.abs createdAt ≤ HostDate.maxTime)%Z →
  (steady zone createdAt 2 →
   calculateSLADeadlineIn zone now "critical" (Some createdAt)
   = Some (createdAt + 2 * 3600000))
  ∧ (steady zone createdAt 8 →
     calculateSLADeadlineIn zone now "high" (Some createdAt)
     = Some (createdAt + 8 * 3600000))
  ∧ (steady zone createdAt 24 →
     calculateSLADeadlineIn zone now "medium" (Some createdAt)
     = Some (createdAt + 24 * 3600000))
  ∧ (steady zone createdAt 72 →
     calculateSLADeadlineIn zone now "low" (Some createdAt)
     = Some (createdAt + 72 * 3600000))
  ∧ (priority ∉ ticketPriority → steady zone createdAt 24 →
     calculateSLADeadlineIn zone now priority (Some createdAt)
     = Some (createdAt + 24 * 3600000))
  ∧ calculateSLADeadlineIn zone now priority (Some createdAt)
    = HostDate.TimeClip
        (createdAt + slaHours priority * 3600000
         - (HostDate.localOffset zone
              (createdAt + HostDate.utcOffset zone createdAt
               + slaHours priority * 3600000)
            - HostDate.utcOffset zone createdAt)).
Proof.
  intros Ht. unfold calculateSLADeadlineIn. simpl default.
  cbn [String.eqb Ascii.eqb Bool.eqb].
  split_and!; try (intros Hs; by apply steady_deadline).
  - intros Hp Hs.
    assert (priority ≠ "critical" ∧ priority ≠ "high"
            ∧ priority ≠ "medium" ∧ priority ≠ "low") as (? & ? & ? & ?)
      by (unfold ticketPriority in Hp; set_solver).
    repeat (match goal with
            | |- context [String.eqb priority ?p] =>
                destruct (String.eqb_spec priority p); [done|]
            end).
    by apply steady_deadline.
  - rewrite (TimeClip_Some _ Ht). unfold slaHours.
    destruct (String.eqb_spec priority "critical") as [->|?];
      [|destruct (String.eqb_spec priority "high") as [->|?];
        [|destruct (String.eqb_spec priority "medium") as [->|?];
          [|destruct (String.eqb_spec priority "low") as [->|?]]]];
      cbn [String.eqb Ascii.eqb Bool.eqb];
      apply HostDate_setHours_getHours.
Qed.

Lemma calculateSLADeadline_offsets_witness :
  calculateSLADeadlineIn (HostDate.fixedZone 18000000) 1700000000000 "urgent" (Some 1000)
  = Some (1000 + 24 * 3600000).
Proof.
  destruct (calculateSLADeadline_offsets (HostDate.fixedZone 18000000) 1700000000000
              "urgent" 1000) as (_ & _ & _ & _ & Hother & _); [by vm_compute|].
  apply Hother.
  - unfold ticketPriority. intros H.
    repeat (apply elem_of_cons in H as [H|H]; [discriminate H|]).
    by apply elem_of_nil in H.
  - split; by vm_compute.
Defined.

(** C9, as stated, fails: on a host in the zone of New York a medium ticket
    created at noon of 9 March 2024 (17:00 UTC) gets the deadline noon of
    10 March, which is 23 hours later. *)
Lemma calculateSLADeadline_across_dst :
  calculateSLADeadlineIn new_york_2024 1700000000000 "medium" (Some 1710003600000)
  = Some (1710003600000 + 23 * 3600000).
Proof. by vm_compute. Qed.

(** ** Overdue tickets *)

Lemma isOverdue_true_iff (now : Z) (t : Ticket) :
  isOverdue now t = true ↔
  ∃ deadline, t_sla_deadline t = Some deadline ∧ deadline < now
              ∧ t_status t ≠ completed ∧ t_status t ≠ closed.
Proof.
  unfold isOverdue, isCompleted, isClosed.
  destruct (t_sla_deadline t) as [d|].
  - repeat case_bool_decide; simpl; (split; [try done; intros _; exists d; eauto |]);
      intros (d' & [= <-] & ? & ? & ?); done.
  - split; [done|]. intros (? & ? & _). done.
Qed.

(** C6.  A rejected ticket whose deadline has passed is reported as overdue:
    [isOverdue] excludes completed and closed tickets only. *)
Theorem isOverdue_rejected_ticket :
  t_status rejected_ticket = rejected ∧ isOverdue 2000 rejected_ticket = true.
Proof. split; reflexivity. Qed.

(** ** Frame lemmas: what the helpers leave alone *)

Lemma notify_admins_frame (type : string) (s : Store) :
  tickets (notify_admins type s) = tickets s
  ∧ users (notify_admins type s) = users s
  ∧ factories (notify_admins type s) = factories s
  ∧ assignments (notify_admins type s) = assignments s
  ∧ approvals (notify_admins type s) = approvals s
  ∧ history (notify_admins type s) = history s.
Proof.
  unfold notify_admins.
  generalize (List.filter (λ '(_, u), bool_decide (u_role u = admin)) (user_rows s)).
  intros l. revert s. induction l as [|[id u] l IH]; intros s; [done|].
  simpl. destruct (IH (createNotification id type s)) as (-> & -> & -> & -> & -> & ->).
  done.
Qed.

Lemma notify_admins_tickets type s : tickets (notify_admins type s) = tickets s.
Proof. apply notify_admins_frame. Qed.
Lemma notify_admins_assignments type s :
  assignments (notify_admins type s) = assignments s.
Proof. apply notify_admins_frame. Qed.
Lemma notify_admins_approvals type s :
  approvals (notify_admins type s) = approvals s.
Proof. apply notify_admins_frame. Qed.
Lemma notify_admins_history type s : history (notify_admins type s) = history s.
Proof. apply notify_admins_frame. Qed.

(** ** Ticket creation *)

(** Every accepted request for a critical ticket yields a pending ticket
    whose deadline is two hours after the time value [urgency_level]. *)
Lemma createTicket_critical (tz now : Z) (user : AuthUser) (body : CreateBody)
    (s : Store) :
  cb_priority body = Some "critical" →
  r_success (createTicket tz now user body s).1 = true →
  ∃ id t,
    r_data (createTicket tz now user body s).1 = PTicket id t
    ∧ tickets (createTicket tz now user body s).2 !! id = Some t
    ∧ tickets s !! id = None
    ∧ t_status t = pending
    ∧ t_created_at t = now
    ∧ t_sla_deadline t = Some (default 3 (cb_urgency_level body) + 2 * 3600000).
Proof.
  intros Hp. unfold createTicket. rewrite Hp. simpl.
  repeat (case_match; simpl; [done|]). intros _.
  eexists _, _. split; [reflexivity|].
  rewrite notify_admins_tickets. simpl. rewrite lookup_insert_eq.
  split; [done|]. split.
  { apply not_elem_of_dom, is_fresh. }
  split; [done|]. split; [done|].
  f_equal. unfold calculateSLADeadline. simpl default.
  apply (setHours_getHours_add tz _ 2).
Qed.

(** C3.  A critical ticket created at T0 = 1700000000000 with the default
    urgency level is pending, but its deadline is 2 hours and 3 ms after the
    epoch, not T0 plus 2 hours: the route passes [urgency_level] where
    [calculateSLADeadline] expects the creation date. *)
Theorem createTicket_critical_deadline_from_urgency :
  r_code (createTicket 0 1700000000000 demo_employee critical_body demo_store).1 = 201
  ∧ (t_status <$>
       tickets (createTicket 0 1700000000000 demo_employee critical_body demo_store).2
         !! 1%positive) = Some pending
  ∧ (t_sla_deadline <$>
       tickets (createTicket 0 1700000000000 demo_employee critical_body demo_store).2
         !! 1%positive) = Some (Some 7200003)
  ∧ 7200003 ≠ 1700000000000 + 2 * 3600000.
Proof. vm_compute. repeat split; discriminate. Qed.

(** ** The status table *)

Lemma status_of_string_name (st : Status) : status_of_string (status_name st) = Some st.
Proof. by destruct st. Qed.

Lemma status_of_string_Some (status : string) (st : Status) :
  status_of_string status = Some st → status = status_name st.
Proof.
  unfold status_of_string. intros H. apply find_some in H as [_ H].
  by apply String.eqb_eq in H.
Qed.

(** The table of the code is the table of the specification. *)
Lemma isValidStatusTransition_iff (cur : Status) (status : string) :
  isValidStatusTransition cur status = true ↔
  ∃ st, status = status_name st ∧ spec_edge cur st.
Proof.
  unfold isValidStatusTransition. rewrite existsb_exists. split.
  - intros (x & Hin & Heq). apply String.eqb_eq in Heq. subst x.
    destruct cur; simpl in Hin; repeat (destruct Hin as [<-|Hin]); try done;
      eexists; (split; [|econstructor]); done.
  - intros (st & -> & He). exists (status_name st).
    split; [|apply String.eqb_refl].
    destruct He; simpl; auto.
Qed.

(** ** The status route *)

(** What a status request does, by cases on the guards of the handler. *)
Lemma updateStatus_cases (user : AuthUser) (id : Uuid) (status : string)
    (comment : option string) (s : Store) (ticket : Ticket) :
  tickets s !! id = Some ticket →
  status ≠ "" →
  checkTicketAccess ticket user = true →
  (isValidStatusTransition (t_status ticket) status = false
   ∧ updateStatus user id (Some status) comment s =
       (failure 400 ("Invalid status transition from "
                     ++ status_name (t_status ticket) ++ " to " ++ status), s))
  ∨ (∃ st, status = status_name st ∧ spec_edge (t_status ticket) st
      ∧ r_success (updateStatus user id (Some status) comment s).1 = true
      ∧ tickets (updateStatus user id (Some status) comment s).2
          = alter (set_status st) id (tickets s)
      ∧ approvals (updateStatus user id (Some status) comment s).2 = approvals s
      ∧ assignments (updateStatus user id (Some status) comment s).2 = assignments s
      ∧ history (updateStatus user id (Some status) comment s).2
          = (history s ++ [mkHistory id (au_id user) a_status_changed
                             (Some (VText status)) (Some (VText status))
                             (Some "status") comment])%list).
Proof.
  intros Ht Hne Hacc. unfold updateStatus.
  destruct status as [|c status']; [done|]. rewrite Ht, Hacc. simpl negb.
  cbv iota.
  destruct (isValidStatusTransition (t_status ticket) (String c status')) eqn:Hv.
  - right. apply isValidStatusTransition_iff in Hv as (st & Hst & He).
    exists st. rewrite Hst, status_of_string_name. simpl.
    split; [done|]. split; [done|].
    destruct st; simpl; rewrite ?notify_admins_tickets, ?notify_admins_approvals,
      ?notify_admins_assignments, ?notify_admins_history; done.
  - left. done.
Qed.

Lemma updateStatus_failure_keeps_store (user : AuthUser) (id : Uuid)
    (status comment : option string) (s : Store) :
  r_success (updateStatus user id status comment s).1 = false →
  (updateStatus user id status comment s).2 = s.
Proof.
  unfold updateStatus.
  repeat (case_match; simpl; try done).
Qed.

(** C1.  For a ticket and a requested status: the status route changes a
    status only along an edge of the transition table; a target that is not
    reachable from the current status leaves the store unchanged and the
    request fails, with the invalid-transition error once the request names
    a status and the user may update the ticket; a reachable target is
    taken. *)
Theorem updateStatus_follows_transition_table (user : AuthUser) (id : Uuid)
    (status : string) (comment : option string) (s : Store) (ticket : Ticket) :
  tickets s !! id = Some ticket →
  (∀ id' t t',
     tickets s !! id' = Some t →
     tickets (updateStatus user id (Some status) comment s).2 !! id' = Some t' →
     t_status t' = t_status t ∨ spec_edge (t_status t) (t_status t'))
  ∧ ((∀ st, status = status_name st → ¬ spec_edge (t_status ticket) st) →
     (updateStatus user id (Some status) comment s).2 = s
     ∧ r_success (updateStatus user id (Some status) comment s).1 = false
     ∧ (status ≠ "" → checkTicketAccess ticket user = true →
        (updateStatus user id (Some status) comment s).1
          = failure 400 ("Invalid status transition from "
                         ++ status_name (t_status ticket) ++ " to " ++ status)))
  ∧ (∀ st, status = status_name st → spec_edge (t_status ticket) st →
     checkTicketAccess ticket user = true →
     r_success (updateStatus user id (Some status) comment s).1 = true
     ∧ (t_status <$> tickets (updateStatus user id (Some status) comment s).2 !! id)
         = Some st).
Proof.
  intros Ht.
  destruct (decide (status = "")) as [->|Hne].
  { simpl. split; [intros id' t t' H1 H2; left; congruence|].
    split; [done|]. intros st Hst. by destruct st. }
  destruct (checkTicketAccess ticket user) eqn:Hacc; cycle 1.
  { assert (updateStatus user id (Some status) comment s
            = (failure 403 "Access denied. You do not have permission to update this ticket.", s))
      as ->.
    { unfold updateStatus. destruct status; [done|]. by rewrite Ht, Hacc. }
    simpl. split; [intros id' t t' H1 H2; left; congruence|]. done. }
  destruct (updateStatus_cases user id status comment s ticket Ht Hne Hacc)
    as [[Hv ->]|(st & Hst & He & Hok & Htk & _)].
  - simpl. split; [intros id' t t' H1 H2; left; congruence|].
    split; [done|]. intros st Hst He _.
    assert (isValidStatusTransition (t_status ticket) status = true)
      by (apply isValidStatusTransition_iff; eauto).
    congruence.
  - split.
    { intros id' t t'. rewrite Htk. intros H1.
      destruct (decide (id' = id)) as [->|Hid].
      - rewrite lookup_alter_eq, H1. intros [= <-]. simpl.
        right. congruence.
      - rewrite lookup_alter_ne by done. intros H2. left. congruence. }
    split.
    { intros Hno. destruct (Hno st Hst He). }
    intros st' Hst' _ _. split; [done|].
    rewrite Htk, lookup_alter_eq, Ht. simpl. f_equal.
    subst status. destruct st, st'; simpl in Hst'; congruence.
Qed.

Lemma updateStatus_follows_transition_table_witness :
  updateStatus demo_employee 1 (Some "closed") None (store_with pending_ticket)
  = (failure 400 "Invalid status transition from pending to closed",
     store_with pending_ticket).
Proof.
  pose proof (updateStatus_follows_transition_table demo_employee 1 "closed" None
                (store_with pending_ticket) pending_ticket eq_refl)
    as (_ & H & _).
  destruct H as (Hs & _ & Hr).
  { intros st Hst He. destruct st; try discriminate Hst. inversion He. }
  specialize (Hr ltac:(discriminate) eq_refl).
  destruct (updateStatus _ _ _ _ _) as [r s']. simpl in Hs, Hr.
  rewrite Hs, Hr. reflexivity.
Defined.

(** ** The audit trail *)

Lemma assignTicket_history (now : Z) (user : AuthUser) (id assigned_to : Uuid)
    (notes : option string) (s : Store) :
  r_success (assignTicket now user id (Some assigned_to) notes s).1 = true →
  history (assignTicket now user id (Some assigned_to) notes s).2
  = (history s ++ [mkHistory id (au_id user) a_assigned
                     (Some (VUser assigned_to)) (Some (VUser assigned_to))
                     (Some "assigned_to") notes])%list.
Proof.
  unfold assignTicket. repeat (case_match; simpl; try done).
Qed.

(** C4.  The status route on a pending ticket, asked to move it to
    admin_review, appends one history row, but its [old_value] is the new
    status and not "pending": the handler reads [ticket.status] after
    [ticket.update]. *)
Theorem updateStatus_history_old_value_is_new_status :
  (t_status <$> tickets (store_with pending_ticket) !! 1%positive) = Some pending
  ∧ r_success (updateStatus demo_employee 1 (Some "admin_review") None
                 (store_with pending_ticket)).1 = true
  ∧ history (updateStatus demo_employee 1 (Some "admin_review") None
               (store_with pending_ticket)).2
    = [mkHistory 1 3 a_status_changed (Some (VText "admin_review"))
         (Some (VText "admin_review")) (Some "status") None].
Proof. vm_compute. done. Qed.

(** ** The admin decision *)

(** C5, as stated, fails: an approval succeeds and leaves [approved_at]
    unset. *)
Lemma approveTicket_leaves_approved_at_unset :
  r_success (approveTicket 5000 demo_admin 1 (Some "approved") None
               (store_with review_ticket)).1 = true
  ∧ (t_status <$>
       tickets (approveTicket 5000 demo_admin 1 (Some "approved") None
                  (store_with review_ticket)).2 !! 1%positive) = Some approved
  ∧ (t_approved_at <$>
       tickets (approveTicket 5000 demo_admin 1 (Some "approved") None
                  (store_with review_ticket)).2 !! 1%positive) = Some None.
Proof. vm_compute. done. Qed.

Lemma decision_of_string_Some (decision : string) (d : Decision) :
  decision_of_string decision = Some d →
  status_name (decision_status d) = decision ∧ d ≠ d_pending.
Proof.
  unfold decision_of_string.
  destruct (String.eqb_spec decision "approved") as [->|_]; [by intros [= <-]|].
  destruct (String.eqb_spec decision "rejected") as [->|_]; [by intros [= <-]|].
  done.
Qed.

(** C5, amended.  For an existing ticket and a decision approved or
    rejected: the decision route fails with the not-in-admin-review error,
    changing nothing, whenever the status is not admin_review; otherwise it
    succeeds, sets the status to the decision and leaves [approved_at] as
    it was (unset, since no route writes it), appends an approval record
    with that decision and [decided_at] the decision time, and appends an
    approved or rejected history row. *)
Theorem approveTicket_decides (now : Z) (user : AuthUser) (id : Uuid)
    (decision : string) (reason : option string) (s : Store) (ticket : Ticket)
    (d : Decision) :
  tickets s !! id = Some ticket →
  decision_of_string decision = Some d →
  (t_status ticket ≠ admin_review →
   approveTicket now user id (Some decision) reason s
   = (failure 400 "Ticket is not in admin review status", s))
  ∧ (t_status ticket = admin_review →
     r_success (approveTicket now user id (Some decision) reason s).1 = true
     ∧ (∃ t', tickets (approveTicket now user id (Some decision) reason s).2 !! id
                = Some t'
              ∧ t_status t' = decision_status d
              ∧ status_name (t_status t') = decision
              ∧ t_approved_at t' = t_approved_at ticket)
     ∧ approvals (approveTicket now user id (Some decision) reason s).2
       = (approvals s ++ [mkApproval id (au_id user) d reason now (Some now)])%list
     ∧ history (approveTicket now user id (Some decision) reason s).2
       = (history s ++
            [mkHistory id (au_id user)
               (if bool_decide (d = d_approved) then a_approved else a_rejected)
               (Some (VText "admin_review")) (Some (VText decision))
               (Some "status") reason])%list).
Proof.
  intros Ht Hd. unfold approveTicket. simpl default. rewrite Hd, Ht.
  apply decision_of_string_Some in Hd as [Hname _].
  case_bool_decide as Hst; simpl.
  - split; [done|]. intros _. split; [done|]. split; [|done].
    exists (set_status (decision_status d) ticket).
    by rewrite lookup_alter_eq, Ht.
  - split; [done|]. done.
Qed.

Lemma approveTicket_decides_witness :
  approveTicket 5000 demo_admin 1 (Some "rejected") (Some "duplicate")
    (store_with pending_ticket)
  = (failure 400 "Ticket is not in admin review status", store_with pending_ticket).
Proof.
  apply (approveTicket_decides 5000 demo_admin 1 "rejected" (Some "duplicate")
           (store_with pending_ticket) pending_ticket d_rejected);
    [reflexivity | reflexivity | discriminate].
Defined.

(** ** Elementary changes of the ledgers

    Every handler changes the tickets, the assignment ledger and the
    approval ledger by a sequence of elementary changes ([change]). *)

Lemma changes_refl (s : Store) : changes s s.
Proof. apply rtc_refl. Qed.

Lemma changes_once (s s' : Store) : change s s' → changes s s'.
Proof. apply rtc_once. Qed.


(** *** Each handler is a sequence of elementary changes *)

Lemma createTicket_changes tz now user body s :
  changes s (createTicket tz now user body s).2.
Proof.
  unfold createTicket.
  repeat (case_match; simpl; [apply changes_refl|]).
  apply changes_once. eapply ch_create; simpl;
    rewrite ?notify_admins_tickets, ?notify_admins_assignments,
      ?notify_admins_approvals; simpl; try done.
  - apply not_elem_of_dom, is_fresh.
  - done.
  - done.
Qed.

Lemma updateStatus_changes user id status comment s :
  changes s (updateStatus user id status comment s).2.
Proof.
  destruct status as [status|]; [|apply changes_refl].
  destruct (decide (status = "")) as [->|Hne]; [apply changes_refl|].
  destruct (tickets s !! id) as [ticket|] eqn:Ht; cycle 1.
  { unfold updateStatus. destruct status; [done|]. rewrite Ht. apply changes_refl. }
  destruct (checkTicketAccess ticket user) eqn:Hacc; cycle 1.
  { unfold updateStatus. destruct status; [done|]. rewrite Ht, Hacc. apply changes_refl. }
  destruct (updateStatus_cases user id status comment s ticket Ht Hne Hacc)
    as [[_ ->]|(st & _ & He & _ & Htk & Hap & Has & _)]; [apply changes_refl|].
  apply changes_once. by eapply ch_status.
Qed.

Lemma approveTicket_changes now user id decision reason s :
  changes s (approveTicket now user id decision reason s).2.
Proof.
  unfold approveTicket.
  destruct (decision_of_string (default "" decision)) as [d|] eqn:Hd;
    [|apply changes_refl].
  destruct (tickets s !! id) as [ticket|] eqn:Ht; [|apply changes_refl].
  case_bool_decide as Hst; simpl; [|apply changes_refl].
  apply decision_of_string_Some in Hd as [_ Hd].
  apply changes_once.
  by eapply (ch_decide _ _ id ticket (mkApproval id (au_id user) d reason now (Some now))).
Qed.

Lemma bulkApprove_step_changes now user d decision reason st ticketId :
  d ≠ d_pending →
  changes (bl_store st)
    (bl_store (bulkApprove_step now user d decision reason st ticketId)).
Proof.
  intros Hd. unfold bulkApprove_step.
  destruct (tickets (bl_store st) !! ticketId) as [ticket|] eqn:Ht;
    [|apply changes_refl].
  case_bool_decide as Hst; simpl; [|apply changes_refl].
  apply changes_once.
  by eapply (ch_decide _ _ ticketId ticket
               (mkApproval ticketId (au_id user) d reason now (Some now))).
Qed.

Lemma bulkApprove_loop_changes now user d decision reason l st :
  d ≠ d_pending →
  changes (bl_store st)
    (bl_store (fold_left (bulkApprove_step now user d decision reason) l st)).
Proof.
  intros Hd. revert st. induction l as [|x l IH]; intros st.
  - apply changes_refl.
  - simpl. etrans; [|apply IH]. by apply bulkApprove_step_changes.
Qed.

Lemma bulkApprove_changes now user ids decision reason s :
  changes s (bulkApprove now user ids decision reason s).2.
Proof.
  unfold bulkApprove. destruct ids as [|i ids]; [apply changes_refl|].
  destruct (decision_of_string (default "" decision)) as [d|] eqn:Hd;
    [|apply changes_refl].
  apply decision_of_string_Some in Hd as [_ Hd]. cbn [snd].
  by apply (bulkApprove_loop_changes now user d _ reason (i :: ids)
              (mkBulkLoop s [] [])).
Qed.

Lemma assignTicket_changes now user id assigned_to notes s :
  changes s (assignTicket now user id assigned_to notes s).2.
Proof.
  unfold assignTicket.
  destruct assigned_to as [assigned_to|]; [|apply changes_refl].
  destruct (tickets s !! id) as [ticket|] eqn:Ht; [|apply changes_refl].
  case_bool_decide as Hst; simpl; [|apply changes_refl].
  destruct (users s !! assigned_to) as [u|]; [|apply changes_refl].
  destruct (has_support_role u); simpl; [|apply changes_refl].
  apply changes_once.
  eapply (ch_assign _ _ id ticket _
            (mkAssignment id assigned_to (au_id user) notes true now None) true);
    simpl; eauto; try reflexivity; try (by right); try (by left).
Qed.

Lemma selfAssign_changes now user id notes s :
  changes s (selfAssign now user id notes s).2.
Proof.
  unfold selfAssign.
  destruct (tickets s !! id) as [ticket|] eqn:Ht; [|apply changes_refl].
  case_bool_decide as Hst; simpl; [|apply changes_refl].
  case_bool_decide as Hasg; simpl; [apply changes_refl|].
  repeat (case_match; simpl; [apply changes_refl|]).
  apply changes_once.
  eapply (ch_assign _ _ id ticket _
            (mkAssignment id (au_id user) (au_id user) _ true now None) false);
    simpl; eauto; try reflexivity; try (by right).
  right. destruct (t_assigned_to ticket); [|done]. destruct Hasg. eauto.
Qed.

Lemma reassign_changes now user id assigned_to reason s :
  changes s (reassign now user id assigned_to reason s).2.
Proof.
  unfold reassign.
  destruct assigned_to as [assigned_to|]; [|apply changes_refl].
  destruct (tickets s !! id) as [ticket|] eqn:Ht; [|apply changes_refl].
  destruct (t_assigned_to ticket) as [old|] eqn:Hold; [|apply changes_refl].
  destruct (users s !! assigned_to) as [u|]; [|apply changes_refl].
  destruct (has_support_role u); simpl; [|apply changes_refl].
  apply changes_once.
  eapply (ch_assign _ _ id ticket _
            (mkAssignment id assigned_to (au_id user) reason true now None) true);
    simpl; eauto; try reflexivity; try (by right); try (by left).
Qed.

Lemma unassign_changes user id reason s :
  changes s (unassign user id reason s).2.
Proof.
  unfold unassign.
  destruct (tickets s !! id) as [ticket|] eqn:Ht; [|apply changes_refl].
  destruct (t_assigned_to ticket) as [old|] eqn:Hold; [|apply changes_refl].
  apply changes_once.
  eapply (ch_unassign _ _ id ticket); simpl; eauto; try reflexivity.
Qed.

(** *** Sorting and queries *)

Lemma insert_by_Permutation {A} (le : A -> A -> bool) (x : A) (l : list A) :
  insert_by le x l ≡ₚ x :: l.
Proof.
  induction l as [|y l IH]; simpl; [done|].
  destruct (le x y); [done|]. rewrite IH. apply perm_swap.
Qed.

Lemma sort_by_Permutation {A} (le : A -> A -> bool) (l : list A) :
  sort_by le l ≡ₚ l.
Proof.
  induction l as [|x l IH]; simpl; [done|].
  unfold sort_by in *. simpl. by rewrite insert_by_Permutation, IH.
Qed.

Lemma sort_by_length {A} (le : A -> A -> bool) (l : list A) :
  length (sort_by le l) = length l.
Proof. apply Permutation_length, sort_by_Permutation. Qed.

Lemma filter_sublist {A} (f : A -> bool) (l : list A) :
  List.filter f l `sublist_of` l.
Proof.
  induction l as [|x l IH]; simpl; [done|].
  destruct (f x); by constructor.
Qed.

Lemma elem_of_filter {A} (f : A -> bool) (l : list A) (x : A) :
  x ∈ List.filter f l ↔ x ∈ l ∧ f x = true.
Proof. rewrite !list_elem_of_In. apply filter_In. Qed.

Lemma find_unassigned_tickets_NoDup factory_id n s :
  NoDup (find_unassigned_tickets factory_id n s).*1.
Proof.
  unfold find_unassigned_tickets, ticket_rows.
  eapply sublist_NoDup; [|apply fmap_sublist, sublist_take].
  rewrite sort_by_Permutation.
  eapply sublist_NoDup; [|apply fmap_sublist, filter_sublist].
  apply NoDup_fst_map_to_list.
Qed.

Lemma find_unassigned_tickets_elem factory_id n s id t :
  (id, t) ∈ find_unassigned_tickets factory_id n s →
  tickets s !! id = Some t ∧ t_status t = approved ∧ t_assigned_to t = None
  ∧ t_factory_id t = factory_id.
Proof.
  unfold find_unassigned_tickets, ticket_rows. intros H.
  apply elem_of_take in H as (i & H & _). apply list_elem_of_lookup_2 in H.
  rewrite sort_by_Permutation in H.
  apply elem_of_filter in H as [H Hf]. apply elem_of_map_to_list in H.
  apply andb_prop in Hf as [Hf H3]. apply andb_prop in Hf as [H1 H2].
  apply String.eqb_eq in H1. apply bool_decide_eq_true in H2, H3. done.
Qed.

Lemma find_support_staff_NoDup factory_id s :
  NoDup (find_support_staff factory_id s).*1.
Proof.
  unfold find_support_staff, user_rows.
  eapply sublist_NoDup; [|apply fmap_sublist, filter_sublist].
  apply NoDup_fst_map_to_list.
Qed.

(** *** The allocation loop is a sequence of assignments *)

Lemma autoAssign_step_tickets now user st ticket id :
  id ≠ ticket.1 →
  tickets (al_store (autoAssign_step now user st ticket)) !! id
  = tickets (al_store st) !! id.
Proof.
  intros Hne. unfold autoAssign_step.
  destruct (al_staffWorkload st !! _); [|done]. simpl.
  by rewrite lookup_alter_ne.
Qed.

Lemma autoAssign_step_change now user st ticket t :
  tickets (al_store st) !! ticket.1 = Some t →
  t_assigned_to t = None →
  changes (al_store st) (al_store (autoAssign_step now user st ticket)).
Proof.
  intros Ht Hnone. unfold autoAssign_step.
  destruct (al_staffWorkload st !! _) as [entry|]; [|apply changes_refl]. simpl.
  apply changes_once.
  eapply (ch_assign _ _ ticket.1 t _
            (mkAssignment ticket.1 (staff entry).1 (au_id user) _ true now None) false);
    simpl; eauto; try reflexivity. by right.
Qed.

Lemma autoAssign_loop_changes now user (l : list (Uuid * Ticket)) st :
  NoDup l.*1 →
  (∀ x, x ∈ l → ∃ t, tickets (al_store st) !! x.1 = Some t ∧ t_assigned_to t = None) →
  changes (al_store st) (al_store (fold_left (autoAssign_step now user) l st)).
Proof.
  revert st. induction l as [|x l IH]; intros st Hnd Hl; [apply changes_refl|].
  simpl. apply NoDup_cons in Hnd as [Hx Hnd].
  destruct (Hl x) as (t & Ht & Hnone); [left|].
  etrans; [by eapply autoAssign_step_change|].
  apply IH; [done|]. intros y Hy.
  rewrite autoAssign_step_tickets.
  - apply Hl. by right.
  - intros Heq. apply Hx. rewrite <- Heq. by apply list_elem_of_fmap_2.
Qed.

Lemma autoAssign_changes now user factory_id max_assignments s :
  changes s (autoAssign now user factory_id max_assignments s).2.
Proof.
  unfold autoAssign.
  destruct (truthy factory_id); simpl; [|apply changes_refl].
  destruct (find_unassigned_tickets _ _ s) as [|x l] eqn:Hl; [apply changes_refl|].
  destruct (find_support_staff _ s) as [|u us]; [apply changes_refl|].
  cbn [snd]. rewrite <- Hl.
  apply (autoAssign_loop_changes now user _ (mkAutoLoop s _ 0 [])).
  - apply find_unassigned_tickets_NoDup.
  - intros [id t] Hx. apply find_unassigned_tickets_elem in Hx as (? & _ & ? & _).
    eauto.
Qed.

Lemma handle_changes tz c s : changes s (handle tz c s).2.
Proof.
  unfold handle. destruct (c_request c).
  - apply createTicket_changes.
  - apply updateStatus_changes.
  - apply approveTicket_changes.
  - apply bulkApprove_changes.
  - apply assignTicket_changes.
  - apply selfAssign_changes.
  - apply reassign_changes.
  - apply unassign_changes.
  - apply autoAssign_changes.
Qed.

Lemma run_changes tz cs s : changes s (run tz cs s).
Proof.
  unfold run. revert s. induction cs as [|c cs IH]; intros s; simpl.
  - apply changes_refl.
  - etrans; [apply handle_changes|apply IH].
Qed.

(** ** The assignment ledger *)

Lemma active_in_app id l1 l2 :
  active_in id (l1 ++ l2) = (active_in id l1 ++ active_in id l2)%list.
Proof. apply List.filter_app. Qed.

Lemma active_in_deactivate_eq id l : active_in id (deactivate_list id l) = [].
Proof.
  induction l as [|a l IH]; simpl; [done|].
  destruct (bool_decide (ta_ticket_id a = id) && ta_is_active a) eqn:E; simpl.
  - by rewrite andb_false_r.
  - by rewrite E.
Qed.

Lemma active_in_deactivate_ne id id' l :
  id ≠ id' → active_in id (deactivate_list id' l) = active_in id l.
Proof.
  intros Hne. induction l as [|a l IH]; simpl; [done|].
  destruct (bool_decide (ta_ticket_id a = id') && ta_is_active a) eqn:E; simpl.
  - apply andb_prop in E as [E1 E2]. apply bool_decide_eq_true in E1.
    rewrite andb_false_r.
    rewrite (bool_decide_eq_false_2 (ta_ticket_id a = id)) by congruence.
    done.
  - by rewrite IH.
Qed.

Lemma active_in_single id a :
  ta_is_active a = true →
  active_in id [a] = if bool_decide (ta_ticket_id a = id) then [a] else [].
Proof. intros Ha. unfold active_in. simpl. rewrite Ha. by case_bool_decide. Qed.

Lemma ledger_unassigned_no_active s id t :
  ledger_consistent s → tickets s !! id = Some t → t_assigned_to t = None →
  active_records id s = [].
Proof.
  intros Hs Ht Hnone. specialize (Hs id). rewrite Ht in Hs.
  destruct Hs as [_ Hs]. rewrite Hnone in Hs.
  by destruct (active_records id s).
Qed.

Lemma change_ledger_consistent s s' :
  change s s' → ledger_consistent s → ledger_consistent s'.
Proof.
  intros Hch Hs id'. pose proof (Hs id') as Hid'. unfold active_records in *.
  destruct Hch as [Htk Has _ | id t Hnone _ Hasg Htk Has _
                  | id t st Ht _ Htk Has _ | id t ap Ht _ _ _ Htk Has _
                  | id t f a deact Ht Hdeact Hid Hact Hf _ Htk Has _
                  | id t f Ht Hf _ Htk Has _];
    rewrite Htk, Has; clear Htk Has.
  - done.
  - destruct (decide (id' = id)) as [->|Hne].
    + rewrite lookup_insert_eq. rewrite Hnone in Hid'. rewrite Hid', Hasg.
      split; [simpl; lia|done].
    + by rewrite lookup_insert_ne.
  - destruct (decide (id' = id)) as [->|Hne].
    + rewrite lookup_alter_eq. rewrite Ht in Hid'. by rewrite Ht.
    + by rewrite lookup_alter_ne.
  - destruct (decide (id' = id)) as [->|Hne].
    + rewrite lookup_alter_eq. rewrite Ht in Hid'. by rewrite Ht.
    + by rewrite lookup_alter_ne.
  - rewrite active_in_app, active_in_single by done.
    destruct (decide (id' = id)) as [->|Hne].
    + rewrite lookup_alter_eq, Ht. simpl. rewrite bool_decide_eq_true_2 by done.
      assert (active_in id
                (if deact then deactivate_list id (assignments s) else assignments s)
              = []) as ->.
      { destruct deact; [apply active_in_deactivate_eq|].
        destruct Hdeact as [?|Hnone]; [done|].
        by apply (ledger_unassigned_no_active s id t). }
      simpl. split; [lia|done].
    + rewrite lookup_alter_ne by done.
      rewrite bool_decide_eq_false_2 by congruence. rewrite app_nil_r.
      destruct deact; [|done]. by rewrite active_in_deactivate_ne.
  - destruct (decide (id' = id)) as [->|Hne].
    + rewrite lookup_alter_eq, Ht. simpl. rewrite active_in_deactivate_eq.
      split; [simpl; lia|done].
    + rewrite lookup_alter_ne by done. by rewrite active_in_deactivate_ne.
Qed.

Lemma changes_ledger_consistent s s' :
  changes s s' → ledger_consistent s → ledger_consistent s'.
Proof. induction 1; eauto using change_ledger_consistent. Qed.

Lemma empty_store_ledger_consistent us fs : ledger_consistent (empty_store us fs).
Proof. intros id. simpl. by rewrite lookup_empty. Qed.

(** C2.  From a store whose ledger is consistent (a new database is), after
    any sequence of calls (assign, self-assign, reassign, unassign,
    auto-assign, and the other routes as well), every ticket has at most one
    active assignment record, and its [assigned_to] is the assignee of the
    active record when there is one and NULL when there is none. *)
Theorem assignment_ledger_single_active (tz : Z) (cs : list Call) (s : Store) :
  ledger_consistent s →
  ∀ id t,
    tickets (run tz cs s) !! id = Some t →
    (length (active_records id (run tz cs s)) ≤ 1)%nat
    ∧ match active_records id (run tz cs s) with
      | a :: _ => t_assigned_to t = Some (ta_assigned_to a)
      | [] => t_assigned_to t = None
      end.
Proof.
  intros Hs id t Ht.
  pose proof (changes_ledger_consistent _ _ (run_changes tz cs s) Hs id) as H.
  rewrite Ht in H. destruct H as [Hlen Hasg]. split; [done|].
  by destruct (active_records id (run tz cs s)).
Qed.

Lemma store_with_ledger_consistent (t : Ticket) :
  t_assigned_to t = None → ledger_consistent (store_with t).
Proof.
  intros Ht id. simpl. destruct (decide (id = 1%positive)) as [->|Hne].
  - rewrite lookup_singleton_eq. split; [simpl; lia|done].
  - by rewrite lookup_singleton_ne.
Qed.

Lemma assignment_ledger_single_active_witness :
  ∃ t,
    tickets (run 0 demo_assignment_calls (store_with approved_ticket)) !! 1%positive
      = Some t
    ∧ (length (active_records 1
                 (run 0 demo_assignment_calls (store_with approved_ticket))) ≤ 1)%nat
    ∧ match active_records 1
              (run 0 demo_assignment_calls (store_with approved_ticket)) with
      | a :: _ => t_assigned_to t = Some (ta_assigned_to a)
      | [] => t_assigned_to t = None
      end.
Proof.
  eexists. split; [vm_compute; reflexivity|].
  apply (assignment_ledger_single_active 0 demo_assignment_calls
           (store_with approved_ticket)).
  - apply store_with_ledger_consistent. reflexivity.
  - vm_compute. reflexivity.
Defined.

(** ** The approval ledger *)

Lemma change_approvals_consistent s s' :
  change s s' → approvals_consistent s → approvals_consistent s'.
Proof.
  intros Hch Hs id'. pose proof (Hs id') as Hid'. unfold approvals_for in *.
  destruct Hch as [Htk _ Hap | id t Hnone Hst _ Htk _ Hap
                  | id t st Ht He Htk _ Hap | id t ap Ht Hst Hid Hd Htk _ Hap
                  | id t f a deact Ht _ _ _ _ Hf Htk _ Hap
                  | id t f Ht _ Hf Htk _ Hap];
    rewrite Htk, Hap; clear Htk Hap.
  - done.
  - destruct (decide (id' = id)) as [->|Hne].
    + rewrite lookup_insert_eq. rewrite Hnone in Hid'. rewrite Hid'.
      split; [simpl; lia|done].
    + by rewrite lookup_insert_ne.
  - destruct (decide (id' = id)) as [->|Hne].
    + rewrite lookup_alter_eq, Ht. rewrite Ht in Hid'. simpl.
      destruct Hid' as [Hlen Hnil]. split; [done|].
      intros Hnew. apply Hnil. inversion He; subst; destruct Hnew; try congruence; auto.
    + by rewrite lookup_alter_ne.
  - rewrite List.filter_app. simpl.
    destruct (decide (id' = id)) as [->|Hne].
    + rewrite lookup_alter_eq, Ht. rewrite Ht in Hid'. simpl.
      destruct Hid' as [_ Hnil]. rewrite Hnil by auto.
      rewrite bool_decide_eq_true_2 by done. simpl. split; [lia|].
      destruct (tap_decision ap); [done| |]; simpl; intros [?|?]; done.
    + rewrite lookup_alter_ne by done.
      rewrite bool_decide_eq_false_2 by congruence. by rewrite app_nil_r.
  - destruct (decide (id' = id)) as [->|Hne].
    + rewrite lookup_alter_eq, Ht. rewrite Ht in Hid'. simpl.
      destruct Hid' as [Hlen Hnil]. split; [done|].
      destruct Hf as [->| ->]; [done|]. intros [?|?]; done.
    + by rewrite lookup_alter_ne.
  - destruct (decide (id' = id)) as [->|Hne].
    + rewrite lookup_alter_eq, Ht. rewrite Ht in Hid'. simpl.
      destruct Hid' as [Hlen Hnil]. split; [done|].
      rewrite Hf. intros [?|?]; done.
    + by rewrite lookup_alter_ne.
Qed.

Lemma changes_approvals_consistent s s' :
  changes s s' → approvals_consistent s → approvals_consistent s'.
Proof. induction 1; eauto using change_approvals_consistent. Qed.

Lemma empty_store_approvals_consistent us fs :
  approvals_consistent (empty_store us fs).
Proof. intros id. simpl. by rewrite lookup_empty. Qed.

Lemma approvals_for_orphan s id :
  approvals_consistent s → (length (approvals_for id s) ≤ 1)%nat.
Proof.
  intros Hs. specialize (Hs id). destruct (tickets s !! id).
  - by destruct Hs.
  - rewrite Hs. simpl. lia.
Qed.

Lemma updateStatus_approvals user id status comment s :
  approvals (updateStatus user id status comment s).2 = approvals s.
Proof.
  unfold updateStatus.
  repeat (case_match; simpl; try done); by rewrite notify_admins_approvals.
Qed.

(** C7, as stated, fails: a ticket enters admin_review and the approval
    ledger stays empty; the decision then appends the first record of the
    ticket, already decided. *)
Lemma entering_review_creates_no_approval :
  (t_status <$>
     tickets (updateStatus demo_employee 1 (Some "admin_review") None
                (store_with pending_ticket)).2 !! 1%positive) = Some admin_review
  ∧ approvals (updateStatus demo_employee 1 (Some "admin_review") None
                 (store_with pending_ticket)).2 = []
  ∧ approvals (approveTicket 5000 demo_admin 1 (Some "approved") None
                 (updateStatus demo_employee 1 (Some "admin_review") None
                    (store_with pending_ticket)).2).2
    = [mkApproval 1 1 d_approved None 5000 (Some 5000)].
Proof. vm_compute. done. Qed.

(** C7, amended.  Entering admin_review through the status route creates no
    approval record; a successful decision appends a new record that carries
    the decision of the request (approved or rejected, never pending) and
    the decision time; and after any sequence of calls on a new database
    every ticket has at most one approval record. *)
Theorem approval_record_lifecycle (tz : Z) (cs : list Call)
    (us : gmap positive User) (fs : gset string) :
  (∀ user id comment s,
     approvals (updateStatus user id (Some "admin_review") comment s).2 = approvals s)
  ∧ (∀ now user id decision reason s,
       r_success (approveTicket now user id decision reason s).1 = true →
       ∃ d, decision = Some (status_name (decision_status d))
            ∧ (d = d_approved ∨ d = d_rejected)
            ∧ approvals (approveTicket now user id decision reason s).2
              = (approvals s ++ [mkApproval id (au_id user) d reason now (Some now)])%list)
  ∧ (∀ id, (length (approvals_for id (run tz cs (empty_store us fs))) ≤ 1)%nat).
Proof.
  split; [intros; apply updateStatus_approvals|]. split.
  - intros now user id decision reason s. unfold approveTicket.
    destruct (decision_of_string (default "" decision)) as [d|] eqn:Hd; [|done].
    apply decision_of_string_Some in Hd as [Hname Hd].
    repeat (case_match; simpl; try done). intros _. exists d. split_and!.
    + destruct decision as [x|]; simpl in Hname; [by rewrite Hname|].
      by destruct d.
    + by destruct d; [destruct Hd|left|right].
    + done.
  - intros id. apply approvals_for_orphan.
    eapply changes_approvals_consistent; [apply run_changes|].
    apply empty_store_approvals_consistent.
Qed.

(** ** Auto-assignment: the allocation *)

Local Open Scope nat_scope.

Lemma ceil_div_spec (n m : nat) :
  0 < m → n ≤ ceil_div n m * m ∧ ∀ q, n ≤ q * m → ceil_div n m ≤ q.
Proof.
  intros Hm. unfold ceil_div.
  pose proof (Nat.div_mod_eq (n + m - 1) m) as Hdm.
  pose proof (Nat.mod_upper_bound (n + m - 1) m ltac:(lia)) as Hlt.
  split; [nia|]. intros q Hq.
  assert ((n + m - 1) / m < S q); [|lia].
  apply Nat.Div0.div_lt_upper_bound. nia.
Qed.

Lemma occ_app u l1 l2 : occ u (l1 ++ l2) = occ u l1 + occ u l2.
Proof. unfold occ. by rewrite List.filter_app, length_app. Qed.

Lemma occ_single u v : occ u [v] = if bool_decide (v = u) then 1 else 0.
Proof. unfold occ. simpl. by case_bool_decide. Qed.

Lemma round_robin_cons ids start n :
  round_robin ids start (S n)
  = (option_list (ids !! (start mod length ids)) ++ round_robin ids (S start) n)%list.
Proof. unfold round_robin. simpl. by destruct (ids !! _). Qed.

Lemma round_robin_snoc ids start n :
  round_robin ids start (S n)
  = (round_robin ids start n ++ option_list (ids !! ((start + n) mod length ids)))%list.
Proof.
  unfold round_robin. rewrite seq_S, omap_app. simpl. by destruct (ids !! _).
Qed.

Lemma round_robin_elem ids start n u : u ∈ round_robin ids start n → u ∈ ids.
Proof.
  unfold round_robin. intros H. apply list_elem_of_omap in H as (k & _ & H).
  by eapply list_elem_of_lookup_2.
Qed.

Lemma round_robin_length ids start n :
  0 < length ids → length (round_robin ids start n) = n.
Proof.
  intros Hm. revert start. induction n as [|n IH]; intros start; [done|].
  rewrite round_robin_cons, length_app, IH.
  destruct (lookup_lt_is_Some_2 ids (start mod length ids)) as [u ->]; [|done].
  apply Nat.mod_upper_bound. lia.
Qed.

(** The position [i] of the round robin is served at the turns [i],
    [i + M], [i + 2 M], ...: after [n] turns it has been served [c] times,
    where [c] is the least number with [n ≤ i + M * c]. *)
Lemma occ_round_robin_bounds ids i u n :
  NoDup ids → ids !! i = Some u →
  n ≤ i + length ids * occ u (round_robin ids 0 n)
  ∧ i + length ids * occ u (round_robin ids 0 n) < n + length ids.
Proof.
  intros Hnd Hi. pose proof (lookup_lt_Some _ _ _ Hi) as Hlt.
  induction n as [|n IH]; [unfold round_robin, occ; simpl; lia|].
  rewrite round_robin_snoc, occ_app. simpl.
  destruct (lookup_lt_is_Some_2 ids (n mod length ids)) as [v Hv].
  { apply Nat.mod_upper_bound. lia. }
  rewrite Hv. simpl. rewrite occ_single.
  pose proof (Nat.div_mod_eq n (length ids)) as Hdm.
  case_bool_decide as Huv.
  - subst v. pose proof (NoDup_lookup _ _ _ _ Hnd Hv Hi) as Hmod.
    rewrite Hmod in Hdm. destruct IH as [IH1 IH2].
    set (c := occ u (round_robin ids 0 n)) in *.
    set (q := n / length ids) in *. set (M := length ids) in *.
    assert (c = q) as ->.
    { destruct (Nat.lt_trichotomy c q) as [H|[H|H]]; [|done|].
      - assert (M * (c + 1) ≤ M * q) by (apply Nat.mul_le_mono_l; lia). lia.
      - assert (M * (q + 1) ≤ M * c) by (apply Nat.mul_le_mono_l; lia). lia. }
    lia.
  - assert (i + length ids * occ u (round_robin ids 0 n) ≠ n) as Hne.
    { intros Heq.
      assert (i = n mod length ids) as Hmod.
      { apply (Nat.mod_unique n (length ids) (occ u (round_robin ids 0 n)) i); lia. }
      rewrite <- Hmod, Hi in Hv. congruence. }
    lia.
Qed.

Lemma occ_not_elem u l : u ∉ l → occ u l = 0.
Proof.
  unfold occ. induction l as [|x l IH]; [done|]. intros Hu.
  apply not_elem_of_cons in Hu as [Hne Hu]. simpl.
  rewrite bool_decide_eq_false_2 by congruence. auto.
Qed.

(** A round of [n] turns over [M] staff gives each of them at most
    ceil(n / M) tickets, and two of them at most one ticket apart. *)
Lemma occ_round_robin_balanced ids n u v :
  NoDup ids →
  occ u (round_robin ids 0 n) ≤ ceil_div n (length ids)
  ∧ (u ∈ ids → v ∈ ids →
     occ u (round_robin ids 0 n) ≤ occ v (round_robin ids 0 n) + 1).
Proof.
  intros Hnd.
  assert (∀ w, w ∈ ids → ∃ i,
            n ≤ i + length ids * occ w (round_robin ids 0 n)
            ∧ i + length ids * occ w (round_robin ids 0 n) < n + length ids
            ∧ i < length ids) as Hb.
  { intros w Hw. apply list_elem_of_lookup_1 in Hw as [i Hi]. exists i.
    pose proof (occ_round_robin_bounds ids i w n Hnd Hi).
    pose proof (lookup_lt_Some _ _ _ Hi). lia. }
  split.
  - destruct (decide (u ∈ ids)) as [Hu|Hu].
    + destruct (Hb u Hu) as (i & H1 & H2 & H3).
      unfold ceil_div. apply Nat.div_le_lower_bound; lia.
    + rewrite occ_not_elem; [lia|]. intros H. by apply round_robin_elem in H.
  - intros Hu Hv.
    destruct (Hb u Hu) as (i & H1 & H2 & H3).
    destruct (Hb v Hv) as (j & H4 & H5 & H6). nia.
Qed.

(** *** What the allocation loop computes *)

Lemma staff_ids_alter_bump i w : staff_ids (alter bump i w) = staff_ids w.
Proof.
  unfold staff_ids. apply list_eq. intros j. rewrite !list_lookup_fmap.
  destruct (decide (i = j)) as [->|Hne].
  - rewrite list_lookup_alter_eq. by destruct (w !! j).
  - by rewrite list_lookup_alter_ne.
Qed.

Lemma autoAssign_step_spec now user st ticket :
  0 < length (al_staffWorkload st) →
  ∃ u,
    staff_ids (al_staffWorkload st)
      !! (al_staffIndex st mod length (staff_ids (al_staffWorkload st))) = Some u
    ∧ staff_ids (al_staffWorkload (autoAssign_step now user st ticket))
      = staff_ids (al_staffWorkload st)
    ∧ al_staffIndex (autoAssign_step now user st ticket) = S (al_staffIndex st)
    ∧ al_assignments (autoAssign_step now user st ticket)
      = (al_assignments st ++ [(ticket.1, u)])%list
    ∧ tickets (al_store (autoAssign_step now user st ticket))
      = alter (fun t => set_status in_progress (set_assigned_to (Some u) t))
          ticket.1 (tickets (al_store st)).
Proof.
  intros Hm. unfold autoAssign_step, staff_ids at 1 2. rewrite length_fmap.
  destruct (lookup_lt_is_Some_2 (al_staffWorkload st)
              (al_staffIndex st mod length (al_staffWorkload st))) as [entry He].
  { apply Nat.mod_upper_bound. lia. }
  rewrite He. exists (staff entry).1. simpl.
  rewrite list_lookup_fmap, He, staff_ids_alter_bump. done.
Qed.

Lemma autoAssign_loop_spec now user (l : list (Uuid * Ticket)) st :
  0 < length (al_staffWorkload st) →
  staff_ids (al_staffWorkload (fold_left (autoAssign_step now user) l st))
    = staff_ids (al_staffWorkload st)
  ∧ (al_assignments (fold_left (autoAssign_step now user) l st)).*1
    = ((al_assignments st).*1 ++ l.*1)%list
  ∧ (al_assignments (fold_left (autoAssign_step now user) l st)).*2
    = ((al_assignments st).*2
       ++ round_robin (staff_ids (al_staffWorkload st)) (al_staffIndex st) (length l))%list.
Proof.
  revert st. induction l as [|x l IH]; intros st Hm.
  { simpl. unfold round_robin. simpl. by rewrite !app_nil_r. }
  destruct (autoAssign_step_spec now user st x Hm) as (u & Hu & Hids & Hidx & Has & _).
  assert (0 < length (al_staffWorkload (autoAssign_step now user st x))) as Hm'.
  { rewrite <- (length_fmap (fun e => (staff e).1)). fold (staff_ids (al_staffWorkload
      (autoAssign_step now user st x))). rewrite Hids. unfold staff_ids.
    by rewrite length_fmap. }
  destruct (IH _ Hm') as (IH1 & IH2 & IH3). simpl fold_left.
  rewrite IH1, IH2, IH3, Hids, Hidx, Has, !fmap_app. simpl.
  rewrite round_robin_cons, Hu. simpl.
  by rewrite <- !app_assoc.
Qed.

Lemma autoAssign_loop_tickets_frame now user (l : list (Uuid * Ticket)) st id :
  id ∉ l.*1 →
  tickets (al_store (fold_left (autoAssign_step now user) l st)) !! id
  = tickets (al_store st) !! id.
Proof.
  revert st. induction l as [|x l IH]; intros st Hid; [done|].
  simpl in *. apply not_elem_of_cons in Hid as [Hne Hid].
  rewrite IH by done. by apply autoAssign_step_tickets.
Qed.

(** Every pair that the loop adds to [assignments] is a ticket of the
    batch that the store now shows as in progress with that assignee. *)
Lemma autoAssign_loop_store now user (l : list (Uuid * Ticket)) st id u :
  0 < length (al_staffWorkload st) →
  NoDup l.*1 →
  (∀ x, x ∈ l → is_Some (tickets (al_store st) !! x.1)) →
  (id, u) ∈ al_assignments (fold_left (autoAssign_step now user) l st) →
  (id, u) ∈ al_assignments st
  ∨ ∃ t, tickets (al_store (fold_left (autoAssign_step now user) l st)) !! id = Some t
         ∧ t_assigned_to t = Some u ∧ t_status t = in_progress.
Proof.
  revert st. induction l as [|x l IH]; intros st Hm Hnd Hl Hin; [by left|].
  simpl in *. apply NoDup_cons in Hnd as [Hx Hnd].
  destruct (autoAssign_step_spec now user st x Hm) as (v & _ & Hids & _ & Has & Htk).
  assert (0 < length (al_staffWorkload (autoAssign_step now user st x))) as Hm'.
  { rewrite <- (length_fmap (fun e => (staff e).1)). fold (staff_ids (al_staffWorkload
      (autoAssign_step now user st x))). rewrite Hids. unfold staff_ids.
    by rewrite length_fmap. }
  destruct (IH _ Hm' Hnd) as [H|H]; [| done | | by right].
  { intros y Hy. destruct (decide (y.1 = x.1)) as [Heq|Hne].
    - rewrite Htk, Heq, lookup_alter_eq. destruct (Hl x) as [t ->]; [left|]. by eexists.
    - rewrite autoAssign_step_tickets by done. apply Hl. by right. }
  rewrite Has in H. apply elem_of_app in H as [H|H]; [by left|].
  apply list_elem_of_singleton in H as [= -> ->]. right.
  rewrite autoAssign_loop_tickets_frame by done.
  rewrite Htk, lookup_alter_eq. destruct (Hl x) as [t ->]; [left|].
  by eexists.
Qed.

Lemma staff_ids_initial (supportStaff : list (Uuid * User)) s :
  staff_ids (initial_staffWorkload supportStaff s) ≡ₚ supportStaff.*1.
Proof.
  unfold staff_ids, initial_staffWorkload. rewrite sort_by_Permutation.
  induction supportStaff as [|x l IH]; [done|]. simpl. by f_equiv.
Qed.

Lemma initial_staffWorkload_length (supportStaff : list (Uuid * User)) s :
  length (initial_staffWorkload supportStaff s) = length supportStaff.
Proof. unfold initial_staffWorkload. by rewrite sort_by_length, length_map. Qed.

Lemma autoAssign_unfold now user fid max_assignments s :
  fid ≠ "" →
  autoAssign now user (Some fid) max_assignments s
  = match find_unassigned_tickets fid (default 5 max_assignments) s with
    | [] => (mkResponse 200 true "No unassigned tickets found" (PAutoAssigned []), s)
    | _ =>
        match find_support_staff fid s with
        | [] => (failure 400 "No available support staff found for this factory", s)
        | _ =>
            (mkResponse 200 true
               ("Auto-assigned "
                +:+ pretty (length (al_assignments
                      (fold_left (autoAssign_step now user)
                         (find_unassigned_tickets fid (default 5 max_assignments) s)
                         (mkAutoLoop s
                            (initial_staffWorkload (find_support_staff fid s) s) 0 []))))
                +:+ " tickets")
               (PAutoAssigned (al_assignments
                  (fold_left (autoAssign_step now user)
                     (find_unassigned_tickets fid (default 5 max_assignments) s)
                     (mkAutoLoop s
                        (initial_staffWorkload (find_support_staff fid s) s) 0 [])))),
             al_store
               (fold_left (autoAssign_step now user)
                  (find_unassigned_tickets fid (default 5 max_assignments) s)
                  (mkAutoLoop s
                     (initial_staffWorkload (find_support_staff fid s) s) 0 [])))
        end
    end.
Proof.
  intros Hfid. unfold autoAssign.
  assert (truthy (Some fid) = true) as ->.
  { simpl. by destruct (String.eqb_spec fid ""). }
  reflexivity.
Qed.

(** The response of a batch that reaches the allocation loop. *)
Lemma autoAssign_allocates now user fid max_assignments s :
  fid ≠ "" → find_support_staff fid s ≠ [] →
  ∃ assigned,
    (autoAssign now user (Some fid) max_assignments s).1
      = mkResponse 200 true
          (if bool_decide (find_unassigned_tickets fid (default 5 max_assignments) s = [])
           then "No unassigned tickets found"
           else "Auto-assigned " +:+ pretty (length assigned) +:+ " tickets")
          (PAutoAssigned assigned)
    ∧ assigned.*1 = (find_unassigned_tickets fid (default 5 max_assignments) s).*1
    ∧ assigned.*2
      = round_robin
          (staff_ids (initial_staffWorkload (find_support_staff fid s) s)) 0
          (length (find_unassigned_tickets fid (default 5 max_assignments) s))
    ∧ ∀ id u, (id, u) ∈ assigned →
        ∃ t, tickets (autoAssign now user (Some fid) max_assignments s).2 !! id = Some t
             ∧ t_assigned_to t = Some u ∧ t_status t = in_progress.
Proof.
  intros Hfid Hstaff. rewrite !autoAssign_unfold by done.
  destruct (find_unassigned_tickets fid (default 5 max_assignments) s)
    as [|x l] eqn:Hl.
  { exists []. unfold round_robin. simpl.
    repeat split; try done. intros id u H. by apply elem_of_nil in H. }
  destruct (find_support_staff fid s) as [|y ys] eqn:Hs; [done|].
  cbn [fst snd]. rewrite <- Hl, <- Hs.
  set (st0 := mkAutoLoop s (initial_staffWorkload (find_support_staff fid s) s) 0 []).
  assert (0 < length (al_staffWorkload st0)) as Hm.
  { simpl. rewrite initial_staffWorkload_length, Hs. simpl. lia. }
  destruct (autoAssign_loop_spec now user
              (find_unassigned_tickets fid (default 5 max_assignments) s) st0 Hm)
    as (_ & H1 & H2).
  eexists. split; [|split; [exact H1|split; [exact H2|]]].
  { rewrite bool_decide_eq_false_2; [done|]. rewrite Hl. done. }
  intros id u Hin.
  assert (∀ x, x ∈ find_unassigned_tickets fid (default 5 max_assignments) s →
               is_Some (tickets (al_store st0) !! x.1)) as Hpres.
  { intros [i t] Hx. apply find_unassigned_tickets_elem in Hx as (Ht & _).
    subst st0. simpl. rewrite Ht. by eexists. }
  destruct (autoAssign_loop_store now user
              (find_unassigned_tickets fid (default 5 max_assignments) s) st0 id u Hm
              (find_unassigned_tickets_NoDup _ _ _) Hpres Hin) as [H|H];
    [by apply elem_of_nil in H | exact H].
Qed.

Lemma received_failure u code message : received u (failure code message) = 0.
Proof. done. Qed.

Lemma find_staff_ids_NoDup fid s :
  NoDup (staff_ids (initial_staffWorkload (find_support_staff fid s) s)).
Proof. rewrite staff_ids_initial. apply find_support_staff_NoDup. Qed.

(** The three ways a batch can end. *)
Lemma autoAssign_cases now user factory_id max_assignments s :
  (truthy factory_id = false
   ∧ autoAssign now user factory_id max_assignments s
     = (failure 400 "Factory ID is required", s))
  ∨ (truthy factory_id = true
     ∧ find_support_staff (default "" factory_id) s = []
     ∧ (autoAssign now user factory_id max_assignments s
        = (mkResponse 200 true "No unassigned tickets found" (PAutoAssigned []), s)
        ∨ autoAssign now user factory_id max_assignments s
          = (failure 400 "No available support staff found for this factory", s)))
  ∨ (truthy factory_id = true
     ∧ find_support_staff (default "" factory_id) s ≠ []
     ∧ ∃ assigned,
         r_success (autoAssign now user factory_id max_assignments s).1 = true
         ∧ r_data (autoAssign now user factory_id max_assignments s).1
           = PAutoAssigned assigned
         ∧ assigned.*1
           = (find_unassigned_tickets (default "" factory_id)
                (default 5 max_assignments) s).*1
         ∧ assigned.*2
           = round_robin
               (staff_ids (initial_staffWorkload
                             (find_support_staff (default "" factory_id) s) s)) 0
               (length (find_unassigned_tickets (default "" factory_id)
                          (default 5 max_assignments) s))
         ∧ ∀ id u, (id, u) ∈ assigned →
             ∃ t, tickets (autoAssign now user factory_id max_assignments s).2 !! id
                    = Some t
                  ∧ t_assigned_to t = Some u ∧ t_status t = in_progress).
Proof.
  destruct (truthy factory_id) eqn:Htr; cycle 1.
  { left. split; [done|]. unfold autoAssign. by rewrite Htr. }
  right. destruct factory_id as [f|]; [|done]. simpl default.
  assert (f ≠ "") as Hf by (intros ->; done).
  destruct (find_support_staff f s) as [|y ys] eqn:Hs.
  - left. split; [done|]. split; [done|]. rewrite autoAssign_unfold, Hs by done.
    destruct (find_unassigned_tickets _ _ _); auto.
  - right. split; [done|]. split; [done|]. rewrite <- Hs.
    destruct (autoAssign_allocates now user f max_assignments s Hf)
      as (assigned & Hresp & H1 & H2 & H3); [by rewrite Hs|].
    exists assigned. rewrite Hresp. done.
Qed.

(** C8.  In a batch over N tickets and M eligible staff, no staff member
    receives more than ceil(N / M) more tickets than any other staff member
    (so than the least-loaded one): each receives at most ceil(N / M)
    tickets, two of them differ by at most one ticket, and with M ≥ 1 the N
    tickets are all given out. *)
Theorem autoAssign_balanced (now : Z) (user : AuthUser) (factory_id : option string)
    (max_assignments : option nat) (s : Store) :
  let fid := default "" factory_id in
  let N := length (find_unassigned_tickets fid (default 5 max_assignments) s) in
  let M := length (find_support_staff fid s) in
  let resp := (autoAssign now user factory_id max_assignments s).1 in
  (∀ u v, u ∈ (find_support_staff fid s).*1 → v ∈ (find_support_staff fid s).*1 →
     received u resp ≤ received v resp + ceil_div N M)
  ∧ (∀ u v, u ∈ (find_support_staff fid s).*1 → v ∈ (find_support_staff fid s).*1 →
       received u resp ≤ received v resp + 1)
  ∧ (∀ u, received u resp ≤ ceil_div N M)
  ∧ (1 ≤ M → truthy factory_id = true →
     ∃ assigned, r_data resp = PAutoAssigned assigned ∧ length assigned = N).
Proof.
  intros fid N M resp. subst resp.
  destruct (autoAssign_cases now user factory_id max_assignments s)
    as [[Htr ->]|[(Htr & Hs & [-> | ->])|(Htr & Hs & assigned & _ & Hdata & H1 & H2 & _)]];
    simpl fst.
  - repeat split; intros; rewrite ?received_failure; try lia. congruence.
  - subst M fid. rewrite Hs. unfold received, occ. simpl.
    repeat split; intros; simpl in *; lia.
  - subst M fid. rewrite Hs. repeat split; intros; rewrite ?received_failure; try lia.
    simpl in *. lia.
  - fold fid in Hs, H1, H2. fold N in H2.
    pose proof (find_staff_ids_NoDup fid s) as Hnd.
    assert (length (staff_ids (initial_staffWorkload (find_support_staff fid s) s)) = M)
      as Hlen by (by rewrite staff_ids_initial, length_fmap).
    unfold received. rewrite Hdata, H2.
    assert (∀ u, u ∈ (find_support_staff fid s).*1 →
              u ∈ staff_ids (initial_staffWorkload (find_support_staff fid s) s))
      as Hin by (intros u; by rewrite staff_ids_initial).
    assert (∀ u, occ u (round_robin
                   (staff_ids (initial_staffWorkload (find_support_staff fid s) s)) 0 N)
                 ≤ ceil_div N M) as Hceil.
    { intros u. rewrite <- Hlen. by apply (occ_round_robin_balanced _ N u u). }
    repeat split.
    + intros u v _ _. specialize (Hceil u). lia.
    + intros u v Hu Hv. by apply occ_round_robin_balanced; auto.
    + done.
    + intros _ _. exists assigned. split; [done|].
      rewrite <- (length_fmap fst), H1, length_fmap. done.
Qed.

Lemma autoAssign_batch_example :
  received 2 (autoAssign 0%Z demo_admin (Some "HRF") None batch_store).1
  + received 4 (autoAssign 0%Z demo_admin (Some "HRF") None batch_store).1 = 5
  ∧ ceil_div 5 2 = 3.
Proof. vm_compute. done. Qed.

(** ** Auto-assignment and the workload cap *)

Lemma round_robin_single u start n : round_robin [u] start n = replicate n u.
Proof.
  revert start. induction n as [|n IH]; intros start; [done|].
  rewrite round_robin_cons, IH. cbn [length]. by rewrite Nat.mod_1_r.
Qed.

(** Self-assignment refuses a user who already holds [maxWorkload] active
    tickets. *)
Lemma selfAssign_capacity now user ticketId notes s ticket :
  tickets s !! ticketId = Some ticket →
  t_status ticket = approved → t_assigned_to ticket = None →
  t_factory_id ticket = au_factory_id user →
  maxWorkload ≤ count_active_tickets (au_id user) s →
  selfAssign now user ticketId notes s
  = (failure 400 "You have reached the maximum workload limit (10 active tickets)", s).
Proof.
  intros Ht Hst Hasg Hf Hcap. unfold selfAssign. rewrite Ht, Hst, Hasg, Hf.
  rewrite String.eqb_refl, andb_false_r.
  rewrite (bool_decide_eq_true_2 (approved = approved)) by done.
  rewrite (bool_decide_eq_false_2 (is_Some None)) by (by intros [? ?]).
  by rewrite (bool_decide_eq_true_2 (maxWorkload ≤ _)).
Qed.

(** C10.  Auto-assignment has no capacity limit.  It answers with a
    success, or with one of its two refusals (no factory id, no staff),
    never with a workload-limit error; and whenever the factory has
    eligible staff, whatever their active-ticket counts, every ticket of
    the batch is allocated to one of them and is in progress for that
    assignee in the store; with exactly one eligible staff member all the
    tickets of the batch go to that member. *)
Theorem autoAssign_no_capacity_limit (now : Z) (user : AuthUser)
    (factory_id : option string) (max_assignments : option nat) (s : Store) :
  let fid := default "" factory_id in
  let batch := find_unassigned_tickets fid (default 5 max_assignments) s in
  let resp := (autoAssign now user factory_id max_assignments s).1 in
  let s' := (autoAssign now user factory_id max_assignments s).2 in
  (r_success resp = true
   ∨ resp = failure 400 "Factory ID is required"
   ∨ resp = failure 400 "No available support staff found for this factory")
  ∧ (truthy factory_id = true → find_support_staff fid s ≠ [] →
     ∃ assigned,
       r_success resp = true
       ∧ r_data resp = PAutoAssigned assigned
       ∧ assigned.*1 = batch.*1
       ∧ (∀ id u, (id, u) ∈ assigned →
            u ∈ (find_support_staff fid s).*1
            ∧ ∃ t, tickets s' !! id = Some t
                   ∧ t_assigned_to t = Some u ∧ t_status t = in_progress)
       ∧ (∀ u usr, find_support_staff fid s = [(u, usr)] →
            assigned.*2 = replicate (length batch) u)).
Proof.
  intros fid batch resp s'. subst resp s'.
  destruct (autoAssign_cases now user factory_id max_assignments s)
    as [[Htr ->]|[(Htr & Hs & [-> | ->])
                 |(Htr & Hs & assigned & Hok & Hdata & H1 & H2 & H3)]];
    simpl fst; simpl snd.
  - split; [auto|]. congruence.
  - split; [auto|]. done.
  - split; [auto|]. done.
  - split; [auto|]. intros _ _. exists assigned.
    fold fid in Hs, H1, H2. fold batch in H1, H2.
    split; [done|]. split; [done|]. split; [done|]. split.
    + intros id u Hin. split; [|by apply H3].
      rewrite <- (staff_ids_initial _ s).
      apply (round_robin_elem _ 0 (length batch)). rewrite <- H2.
      by apply (list_elem_of_fmap_2 snd) in Hin.
    + intros u usr Hone. rewrite H2.
      assert (staff_ids (initial_staffWorkload (find_support_staff fid s) s) = [u])
        as ->; [|apply round_robin_single].
      rewrite Hone. reflexivity.
Qed.

Lemma autoAssign_no_capacity_limit_witness :
  count_active_tickets 2 capped_store = maxWorkload
  ∧ selfAssign 0%Z demo_staff 11 None capped_store
    = (failure 400 "You have reached the maximum workload limit (10 active tickets)",
       capped_store)
  ∧ ∃ assigned,
      r_data (autoAssign 0%Z demo_admin (Some "HRF") None capped_store).1
        = PAutoAssigned assigned
      ∧ assigned.*2 = [2%positive; 2%positive; 2%positive].
Proof.
  split; [vm_compute; reflexivity|]. split; [vm_compute; reflexivity|].
  destruct (autoAssign_no_capacity_limit 0%Z demo_admin (Some "HRF") None capped_store)
    as [_ H].
  destruct H as (assigned & _ & Hdata & _ & _ & Hone).
  - reflexivity.
  - vm_compute. discriminate.
  - exists assigned. split; [exact Hdata|].
    apply (Hone 2%positive (mkUser support_staff "HRF" true)).
    vm_compute. reflexivity.
Defined.

(** ** Refused requests *)

Lemma createTicket_failure_keeps_store tz now user body s :
  r_success (createTicket tz now user body s).1 = false →
  (createTicket tz now user body s).2 = s.
Proof. unfold createTicket. repeat (case_match; simpl; try done). Qed.

Lemma approveTicket_failure_keeps_store now user id decision reason s :
  r_success (approveTicket now user id decision reason s).1 = false →
  (approveTicket now user id decision reason s).2 = s.
Proof. unfold approveTicket. repeat (case_match; simpl; try done). Qed.

Lemma bulkApprove_failure_keeps_store now user ids decision reason s :
  r_success (bulkApprove now user ids decision reason s).1 = false →
  (bulkApprove now user ids decision reason s).2 = s.
Proof. unfold bulkApprove. repeat (case_match; simpl; try done). Qed.

Lemma assignTicket_failure_keeps_store now user id assigned_to notes s :
  r_success (assignTicket now user id assigned_to notes s).1 = false →
  (assignTicket now user id assigned_to notes s).2 = s.
Proof. unfold assignTicket. repeat (case_match; simpl; try done). Qed.

Lemma selfAssign_failure_keeps_store now user id notes s :
  r_success (selfAssign now user id notes s).1 = false →
  (selfAssign now user id notes s).2 = s.
Proof. unfold selfAssign. repeat (case_match; simpl; try done). Qed.

Lemma reassign_failure_keeps_store now user id assigned_to reason s :
  r_success (reassign now user id assigned_to reason s).1 = false →
  (reassign now user id assigned_to reason s).2 = s.
Proof. unfold reassign. repeat (case_match; simpl; try done). Qed.

Lemma unassign_failure_keeps_store user id reason s :
  r_success (unassign user id reason s).1 = false →
  (unassign user id reason s).2 = s.
Proof. unfold unassign. repeat (case_match; simpl; try done). Qed.

Lemma autoAssign_failure_keeps_store now user factory_id max_assignments s :
  r_success (autoAssign now user factory_id max_assignments s).1 = false →
  (autoAssign now user factory_id max_assignments s).2 = s.
Proof. unfold autoAssign. repeat (case_match; simpl; try done). Qed.

(** X1.  A request that is answered with a failure writes nothing: the
    store after the call is the store before it, for every route. *)
Theorem refused_request_keeps_store (tz : Z) (c : Call) (s : Store) :
  r_success (handle tz c s).1 = false → (handle tz c s).2 = s.
Proof.
  unfold handle. destruct (c_request c).
  - apply createTicket_failure_keeps_store.
  - apply updateStatus_failure_keeps_store.
  - apply approveTicket_failure_keeps_store.
  - apply bulkApprove_failure_keeps_store.
  - apply assignTicket_failure_keeps_store.
  - apply selfAssign_failure_keeps_store.
  - apply reassign_failure_keeps_store.
  - apply unassign_failure_keeps_store.
  - apply autoAssign_failure_keeps_store.
Qed.

Lemma refused_request_keeps_store_witness :
  (handle 0 (mkCall demo_admin 100 (ReqAssign 1 (Some 2%positive) None))
     (store_with pending_ticket)).2 = store_with pending_ticket.
Proof.
  apply (refused_request_keeps_store 0
           (mkCall demo_admin 100 (ReqAssign 1 (Some 2%positive) None))
           (store_with pending_ticket)).
  reflexivity.
Defined.

(** ** What no route ever does *)

Lemma row_kept_refl a : row_kept a a.
Proof. by left. Qed.

Lemma row_kept_trans a b c : row_kept a b → row_kept b c → row_kept a c.
Proof.
  intros [->|[Ha ->]] [->|[Hb ->]]; try (by left); by right.
Qed.

Lemma ledger_extends_refl l : ledger_extends l l.
Proof.
  exists l, []. rewrite app_nil_r. split; [done|].
  induction l; constructor; auto using row_kept_refl.
Qed.

Lemma ledger_extends_trans l1 l2 l3 :
  ledger_extends l1 l2 → ledger_extends l2 l3 → ledger_extends l1 l3.
Proof.
  intros (a1 & b1 & -> & H1) (a2 & b2 & -> & H2).
  apply Forall2_app_inv_l in H2 as (a2' & b2' & Ha & Hb & ->).
  exists a2', (b2' ++ b2)%list. rewrite app_assoc. split; [done|].
  clear Hb. revert a2' Ha. induction H1; intros a2' Ha.
  - apply Forall2_nil_inv_l in Ha as ->. constructor.
  - apply Forall2_cons_inv_l in Ha as (z & zs & Hz & Hzs & ->).
    constructor; eauto using row_kept_trans.
Qed.

Lemma ledger_extends_app l l2 : ledger_extends l (l ++ l2).
Proof.
  exists l, l2. split; [done|]. induction l; constructor; auto using row_kept_refl.
Qed.

Lemma ledger_extends_deactivate id l : ledger_extends l (deactivate_list id l).
Proof.
  exists (deactivate_list id l), []. rewrite app_nil_r. split; [done|].
  induction l as [|a l IH]; simpl; constructor; [|done].
  destruct (bool_decide _ && ta_is_active a) eqn:E; [|by left].
  right. by apply andb_prop in E as [_ ?].
Qed.

Lemma tickets_kept_refl m : tickets_kept m m.
Proof. intros id t Ht. eauto. Qed.

Lemma tickets_kept_trans m1 m2 m3 :
  tickets_kept m1 m2 → tickets_kept m2 m3 → tickets_kept m1 m3.
Proof.
  intros H1 H2 id t Ht. destruct (H1 id t Ht) as (t' & Ht' & E1).
  destruct (H2 id t' Ht') as (t'' & Ht'' & E2). exists t''. split; [done|]. congruence.
Qed.

Lemma tickets_kept_alter f id m :
  (∀ t, ticket_core (f t) = ticket_core t) → tickets_kept m (alter f id m).
Proof.
  intros Hf i t Ht. destruct (decide (i = id)) as [->|Hne].
  - exists (f t). by rewrite lookup_alter_eq, Ht.
  - exists t. by rewrite lookup_alter_ne.
Qed.

Lemma tickets_kept_insert id t m :
  m !! id = None → tickets_kept m (<[id := t]> m).
Proof.
  intros Hnone i t' Ht'. exists t'. split; [|done].
  rewrite lookup_insert_ne; [done|]. congruence.
Qed.

Lemma evolves_refl s : evolves s s.
Proof.
  repeat split; auto using tickets_kept_refl, ledger_extends_refl.
Qed.

Lemma evolves_trans s1 s2 s3 : evolves s1 s2 → evolves s2 s3 → evolves s1 s3.
Proof.
  intros (? & ? & ? & ? & ? & ? & ?) (? & ? & ? & ? & ? & ? & ?).
  repeat split; try congruence; try (by etrans);
    eauto using tickets_kept_trans, ledger_extends_trans.
Qed.

Lemma notify_admins_notifications type s :
  notifications s `prefix_of` notifications (notify_admins type s).
Proof.
  unfold notify_admins.
  generalize (List.filter (λ '(_, u), bool_decide (u_role u = admin)) (user_rows s)).
  intros l. revert s. induction l as [|[id u] l IH]; intros s; [done|].
  simpl. etrans; [|apply IH]. simpl. by apply prefix_app_r.
Qed.

Lemma notify_admins_evolves type s : evolves s (notify_admins type s).
Proof.
  destruct (notify_admins_frame type s) as (Ht & Hu & Hf & Ha & Hp & Hh).
  unfold evolves. rewrite Ht, Hu, Hf, Ha, Hp, Hh.
  repeat split; auto using tickets_kept_refl, ledger_extends_refl,
    notify_admins_notifications.
Qed.

(** Closes a goal [evolves s s'] where [s'] is a record built from [s]. *)
Ltac evolves_record :=
  unfold evolves; simpl;
  repeat split;
  try done;
  try (apply tickets_kept_refl);
  try (apply tickets_kept_alter; done);
  try (apply ledger_extends_refl);
  try (apply ledger_extends_app);
  try (apply ledger_extends_deactivate);
  try (eapply ledger_extends_trans;
       [apply ledger_extends_deactivate | apply ledger_extends_app]);
  try (by apply prefix_app_r).

Lemma createTicket_evolves tz now user body s :
  evolves s (createTicket tz now user body s).2.
Proof.
  unfold createTicket.
  repeat (case_match; simpl; [apply evolves_refl|]).
  eapply evolves_trans; [|apply notify_admins_evolves].
  evolves_record. apply tickets_kept_insert, not_elem_of_dom, is_fresh.
Qed.

Lemma updateStatus_evolves user id status comment s :
  evolves s (updateStatus user id status comment s).2.
Proof.
  unfold updateStatus.
  repeat (case_match; simpl; try apply evolves_refl).
  all: try (eapply evolves_trans; [|apply notify_admins_evolves]).
  all: evolves_record.
Qed.

Lemma approveTicket_evolves now user id decision reason s :
  evolves s (approveTicket now user id decision reason s).2.
Proof.
  unfold approveTicket.
  repeat (case_match; simpl; try apply evolves_refl).
  all: evolves_record.
Qed.

Lemma bulkApprove_step_evolves now user d decision reason st ticketId :
  evolves (bl_store st)
    (bl_store (bulkApprove_step now user d decision reason st ticketId)).
Proof.
  unfold bulkApprove_step.
  repeat (case_match; simpl; try apply evolves_refl).
  all: evolves_record.
Qed.

Lemma bulkApprove_loop_evolves now user d decision reason l st :
  evolves (bl_store st)
    (bl_store (fold_left (bulkApprove_step now user d decision reason) l st)).
Proof.
  revert st. induction l as [|x l IH]; intros st; [apply evolves_refl|].
  simpl. eapply evolves_trans; [apply bulkApprove_step_evolves|apply IH].
Qed.

Lemma bulkApprove_evolves now user ids decision reason s :
  evolves s (bulkApprove now user ids decision reason s).2.
Proof.
  unfold bulkApprove. destruct ids as [|i ids]; [apply evolves_refl|].
  destruct (decision_of_string _) as [d|]; [|apply evolves_refl]. cbn [snd].
  apply (bulkApprove_loop_evolves now user d _ reason (i :: ids) (mkBulkLoop s [] [])).
Qed.

Lemma assignTicket_evolves now user id assigned_to notes s :
  evolves s (assignTicket now user id assigned_to notes s).2.
Proof.
  unfold assignTicket.
  repeat (case_match; simpl; try apply evolves_refl).
  all: evolves_record.
Qed.

Lemma selfAssign_evolves now user id notes s :
  evolves s (selfAssign now user id notes s).2.
Proof.
  unfold selfAssign.
  repeat (case_match; simpl; try apply evolves_refl); evolves_record.
Qed.

Lemma reassign_evolves now user id assigned_to reason s :
  evolves s (reassign now user id assigned_to reason s).2.
Proof.
  unfold reassign.
  repeat (case_match; simpl; try apply evolves_refl).
  all: evolves_record.
  all: etrans; by apply prefix_app_r.
Qed.

Lemma unassign_evolves user id reason s :
  evolves s (unassign user id reason s).2.
Proof.
  unfold unassign.
  repeat (case_match; simpl; try apply evolves_refl).
  all: evolves_record.
Qed.

Lemma autoAssign_step_evolves now user st ticket :
  evolves (al_store st) (al_store (autoAssign_step now user st ticket)).
Proof.
  unfold autoAssign_step.
  repeat (case_match; simpl; try apply evolves_refl).
  all: evolves_record.
Qed.

Lemma autoAssign_loop_evolves now user (l : list (Uuid * Ticket)) st :
  evolves (al_store st) (al_store (fold_left (autoAssign_step now user) l st)).
Proof.
  revert st. induction l as [|x l IH]; intros st; [apply evolves_refl|].
  simpl. eapply evolves_trans; [apply autoAssign_step_evolves|apply IH].
Qed.

Lemma autoAssign_evolves now user factory_id max_assignments s :
  evolves s (autoAssign now user factory_id max_assignments s).2.
Proof.
  unfold autoAssign.
  destruct (negb (truthy factory_id)); [apply evolves_refl|].
  destruct (find_unassigned_tickets _ _ s) eqn:Hl; [apply evolves_refl|].
  destruct (find_support_staff _ s); [apply evolves_refl|].
  cbn [snd]. apply (autoAssign_loop_evolves now user _ (mkAutoLoop s _ 0 [])).
Qed.

Lemma handle_evolves tz c s : evolves s (handle tz c s).2.
Proof.
  unfold handle. destruct (c_request c);
    auto using createTicket_evolves, updateStatus_evolves, approveTicket_evolves,
      bulkApprove_evolves, assignTicket_evolves, selfAssign_evolves,
      reassign_evolves, unassign_evolves, autoAssign_evolves.
Qed.

Lemma run_evolves tz cs s : evolves s (run tz cs s).
Proof.
  unfold run. revert s. induction cs as [|c cs IH]; intros s; simpl.
  - apply evolves_refl.
  - eapply evolves_trans; [apply handle_evolves|apply IH].
Qed.

(** X2.  The ledgers are append-only over any sequence of calls: the
    history, the approval records and the notifications of the store before
    are a prefix of those after; the assignment ledger keeps its rows in
    place, unchanged or deactivated, and new rows come after them. *)
Theorem ledgers_append_only (tz : Z) (cs : list Call) (s : Store) :
  history s `prefix_of` history (run tz cs s)
  ∧ approvals s `prefix_of` approvals (run tz cs s)
  ∧ notifications s `prefix_of` notifications (run tz cs s)
  ∧ ∃ kept new,
      assignments (run tz cs s) = (kept ++ new)%list
      ∧ Forall2 (fun a a' => a' = a ∨ (ta_is_active a = true ∧ a' = deactivate a))
          (assignments s) kept.
Proof.
  destruct (run_evolves tz cs s) as (_ & _ & _ & Hl & Hp & Hh & Hn). done.
Qed.

(** X3.  No route deletes a ticket, and none rewrites its title,
    description, priority, factory, requester, urgency level, SLA deadline,
    creation date or the timestamps [approved_at], [assigned_at],
    [resolved_at] and [closed_at]: after any sequence of calls a ticket is
    still there with the same values in these columns. *)
Theorem tickets_kept_by_every_route (tz : Z) (cs : list Call) (s : Store)
    (id : Uuid) (t : Ticket) :
  tickets s !! id = Some t →
  ∃ t',
    tickets (run tz cs s) !! id = Some t'
    ∧ t_title t' = t_title t ∧ t_description t' = t_description t
    ∧ t_priority t' = t_priority t ∧ t_factory_id t' = t_factory_id t
    ∧ t_requester_id t' = t_requester_id t
    ∧ t_urgency_level t' = t_urgency_level t
    ∧ t_sla_deadline t' = t_sla_deadline t ∧ t_created_at t' = t_created_at t
    ∧ t_approved_at t' = t_approved_at t ∧ t_assigned_at t' = t_assigned_at t
    ∧ t_resolved_at t' = t_resolved_at t ∧ t_closed_at t' = t_closed_at t.
Proof.
  intros Ht. destruct (run_evolves tz cs s) as (_ & _ & Hk & _).
  destruct (Hk id t Ht) as (t' & Ht' & Hcore). exists t'. split; [done|].
  unfold ticket_core, set_status, set_assigned_to in Hcore. simpl in Hcore.
  by injection Hcore as -> -> -> -> -> -> -> -> -> -> -> ->.
Qed.

Lemma tickets_kept_by_every_route_witness :
  ∃ t',
    tickets (run 0 demo_assignment_calls (store_with approved_ticket)) !! 1%positive
      = Some t'
    ∧ t_sla_deadline t' = Some 86400003%Z ∧ t_approved_at t' = None
    ∧ t_assigned_at t' = None.
Proof.
  destruct (tickets_kept_by_every_route 0 demo_assignment_calls
              (store_with approved_ticket) 1 approved_ticket eq_refl)
    as (t' & Ht' & _ & _ & _ & _ & _ & _ & Hsla & _ & Hap & Has & _).
  exists t'. by rewrite Ht', Hsla, Hap, Has.
Defined.

(** ** The status route as a way around the approval *)

(** X4.  Whoever has access to a ticket in admin_review (the requester, for
    one) can decide it through the status route: the request succeeds, the
    ticket becomes approved or rejected, and no approval record is
    written. *)
Theorem status_route_decides_without_approval (user : AuthUser) (id : Uuid)
    (st : Status) (comment : option string) (s : Store) (ticket : Ticket) :
  tickets s !! id = Some ticket →
  t_status ticket = admin_review →
  checkTicketAccess ticket user = true →
  st = approved ∨ st = rejected →
  r_success (updateStatus user id (Some (status_name st)) comment s).1 = true
  ∧ tickets (updateStatus user id (Some (status_name st)) comment s).2 !! id
    = Some (set_status st ticket)
  ∧ approvals (updateStatus user id (Some (status_name st)) comment s).2 = approvals s.
Proof.
  intros Ht Hst Hacc Hdec.
  assert (status_name st ≠ "") as Hne by (by destruct st).
  destruct (updateStatus_cases user id (status_name st) comment s ticket Ht Hne Hacc)
    as [[Hv _]|(st' & Hname & _ & Hok & Htk & Hap & _)].
  - assert (isValidStatusTransition (t_status ticket) (status_name st) = true);
      [|congruence].
    apply isValidStatusTransition_iff. exists st. split; [done|]. rewrite Hst.
    destruct Hdec as [-> | ->]; constructor.
  - assert (st' = st) as -> by (destruct st, st'; simpl in Hname; congruence).
    rewrite Htk, lookup_alter_eq, Ht. done.
Qed.

Lemma status_route_decides_without_approval_witness :
  r_success (updateStatus demo_employee 1 (Some "approved") None
               (store_with review_ticket)).1 = true
  ∧ tickets (updateStatus demo_employee 1 (Some "approved") None
               (store_with review_ticket)).2 !! 1%positive
    = Some (set_status approved review_ticket)
  ∧ approvals (updateStatus demo_employee 1 (Some "approved") None
                 (store_with review_ticket)).2 = [].
Proof.
  apply (status_route_decides_without_approval demo_employee 1 approved None
           (store_with review_ticket) review_ticket);
    [reflexivity | reflexivity | reflexivity | by left].
Defined.

(** ** Assignment routes *)





(** X7.  The assign route succeeds exactly when the ticket exists and is
    approved and the assignee is an existing user with role support_staff or
    manager; it looks neither at the assignee's [is_active] flag nor at the
    factories.  On success the ticket is in progress for the assignee and
    the new record is its only active record. *)
Theorem assignTicket_success_iff (now : Z) (user : AuthUser) (id assignee : Uuid)
    (notes : option string) (s : Store) :
  (r_success (assignTicket now user id (Some assignee) notes s).1 = true ↔
   ∃ ticket usr,
     tickets s !! id = Some ticket ∧ t_status ticket = approved
     ∧ users s !! assignee = Some usr
     ∧ (u_role usr = support_staff ∨ u_role usr = manager))
  ∧ (r_success (assignTicket now user id (Some assignee) notes s).1 = true →
     (∃ t, tickets (assignTicket now user id (Some assignee) notes s).2 !! id = Some t
           ∧ t_status t = in_progress ∧ t_assigned_to t = Some assignee)
     ∧ active_records id (assignTicket now user id (Some assignee) notes s).2
       = [mkAssignment id assignee (au_id user) notes true now None]).
Proof.
  unfold assignTicket, has_support_role.
  destruct (tickets s !! id) as [ticket|] eqn:Ht; cycle 1.
  { simpl. split; [|done]. split; [done|]. by intros (? & ? & ? & _). }
  case_bool_decide as Hst; simpl; cycle 1.
  { split; [|done]. split; [done|]. intros (? & ? & [= <-] & ? & _). done. }
  destruct (users s !! assignee) as [usr|] eqn:Hu; cycle 1.
  { simpl. split; [|done]. split; [done|]. by intros (? & ? & _ & _ & ? & _). }
  destruct (bool_decide (u_role usr = support_staff) || bool_decide (u_role usr = manager))
    eqn:Hrole; simpl.
  - split.
    + split; [|done]. intros _. exists ticket, usr.
      apply orb_prop in Hrole as [H|H]; apply bool_decide_eq_true in H; auto.
    + intros _. split.
      * rewrite lookup_alter_eq, Ht. simpl. eauto.
      * unfold active_records. simpl. fold (deactivate_list id (assignments s)).
        rewrite active_in_app, active_in_deactivate_eq, active_in_single by done.
        simpl. by rewrite bool_decide_eq_true_2.
  - split; [|done]. split; [done|]. intros (? & usr' & _ & _ & [= <-] & Hr).
    apply orb_false_elim in Hrole as [H1 H2].
    apply bool_decide_eq_false in H1, H2. by destruct Hr.
Qed.

Lemma assignTicket_success_iff_witness :
  r_success (assignTicket 100 demo_admin 1 (Some 5%positive) None
               (assigned_store approved_ticket)).1 = true
  ∧ r_success (assignTicket 100 demo_admin 1 (Some 1%positive) None
                 (assigned_store approved_ticket)).1 = false.
Proof.
  split.
  - apply (assignTicket_success_iff 100 demo_admin 1 5 None
             (assigned_store approved_ticket)).
    exists approved_ticket, (mkUser support_staff "MVF" false).
    repeat split; auto.
  - destruct (r_success _) eqn:E; [|done].
    apply (assignTicket_success_iff 100 demo_admin 1 1 None
             (assigned_store approved_ticket)) in E
      as (?t & usr & _ & _ & Hu & Hr).
    vm_compute in Hu. injection Hu as <-. by destruct Hr.
Defined.

(** The self-assignment handler succeeds exactly when the ticket exists, is
    approved and has no assignee, the user is not a support_staff of another
    factory, and the user holds fewer than [maxWorkload] = 10 tickets that
    are approved or in progress. *)
Lemma selfAssign_handler_success_iff (now : Z) (user : AuthUser) (id : Uuid)
    (notes : option string) (s : Store) :
  r_success (selfAssign now user id notes s).1 = true ↔
  ∃ ticket,
    tickets s !! id = Some ticket ∧ t_status ticket = approved
    ∧ t_assigned_to ticket = None
    ∧ (au_role user = support_staff → t_factory_id ticket = au_factory_id user)
    ∧ count_active_tickets (au_id user) s < 10.
Proof.
  unfold selfAssign, maxWorkload.
  destruct (tickets s !! id) as [ticket|] eqn:Ht; cycle 1.
  { simpl. split; [done|]. by intros (? & ? & _). }
  case_bool_decide as Hst; simpl; cycle 1.
  { split; [done|]. intros (? & [= <-] & ? & _). done. }
  case_bool_decide as Hasg; simpl.
  { split; [done|]. intros (? & [= <-] & _ & Hnone & _).
    rewrite Hnone in Hasg. by destruct Hasg. }
  assert (t_assigned_to ticket = None) as Hnone.
  { destruct (t_assigned_to ticket); [|done]. destruct Hasg. eauto. }
  destruct (bool_decide (au_role user = support_staff)
            && negb (String.eqb (t_factory_id ticket) (au_factory_id user))) eqn:Hf;
    simpl.
  { split; [done|]. intros (? & [= <-] & _ & _ & Hfac & _).
    apply andb_prop in Hf as [H1 H2]. apply bool_decide_eq_true in H1.
    rewrite (Hfac H1), String.eqb_refl in H2. done. }
  assert (au_role user = support_staff → t_factory_id ticket = au_factory_id user)
    as Hfac.
  { intros Hr. rewrite bool_decide_eq_true_2 in Hf by done. simpl in Hf.
    apply negb_false_iff, String.eqb_eq in Hf. done. }
  destruct (decide (10 ≤ count_active_tickets (au_id user) s)) as [Hcap|Hcap].
  - rewrite bool_decide_eq_true_2 by done. simpl.
    split; [done|]. intros (? & _ & _ & _ & _ & Hlt). lia.
  - rewrite bool_decide_eq_false_2 by done. simpl.
    split; [|done]. intros _. exists ticket. repeat split; auto. lia.
Qed.

(** X8.  A self-assignment request succeeds exactly when the caller is not
    an employee, the ticket exists, is approved and has no assignee, the
    caller is not a support_staff of another factory, and the caller holds
    fewer than [maxWorkload] = 10 tickets that are approved or in progress.
    An employee is refused by the role check with a 403 that writes
    nothing. *)
Theorem selfAssign_route_success_iff (now : Z) (user : AuthUser) (id : Uuid)
    (notes : option string) (s : Store) :
  (r_success (route_selfAssign now user id notes s).1 = true ↔
   au_role user ≠ employee
   ∧ ∃ ticket,
       tickets s !! id = Some ticket ∧ t_status ticket = approved
       ∧ t_assigned_to ticket = None
       ∧ (au_role user = support_staff → t_factory_id ticket = au_factory_id user)
       ∧ count_active_tickets (au_id user) s < 10)
  ∧ (au_role user = employee →
     route_selfAssign now user id notes s
     = (failure 403 "Access denied. Required roles: support_staff, admin, manager", s)).
Proof.
  unfold route_selfAssign, guarded, supportStaffOrAdmin, authorizeRoles.
  destruct (decide (au_role user = employee)) as [Hemp|Hemp].
  - rewrite bool_decide_eq_false_2.
    + split; [|done]. simpl. split; [done|]. by intros [? _].
    + rewrite Hemp. intros Hin.
      repeat (apply elem_of_cons in Hin as [Hin|Hin]; [discriminate Hin|]).
      by apply elem_of_nil in Hin.
  - rewrite bool_decide_eq_true_2.
    + split; [|done]. rewrite selfAssign_handler_success_iff. tauto.
    + destruct (au_role user); [done|..]; repeat constructor.
Qed.

Lemma selfAssign_route_success_iff_witness :
  route_selfAssign 5%Z demo_employee 1 None (store_with approved_ticket)
  = (failure 403 "Access denied. Required roles: support_staff, admin, manager",
     store_with approved_ticket)
  ∧ r_success (selfAssign 5%Z demo_employee 1 None (store_with approved_ticket)).1 = true.
Proof.
  split; [|by vm_compute].
  by apply (selfAssign_route_success_iff 5%Z demo_employee 1 None
              (store_with approved_ticket)).
Defined.

(** ** Ticket creation: what is written *)










(** ** Bulk decision *)







(** ** Auto-assignment: which tickets, which staff *)

Lemma insert_by_StronglySorted {A} (le : A -> A -> bool) (x : A) (l : list A) :
  (∀ a b, le a b = true ∨ le b a = true) →
  (∀ a b c, le a b = true → le b c = true → le a c = true) →
  StronglySorted (fun a b => le a b = true) l →
  StronglySorted (fun a b => le a b = true) (insert_by le x l).
Proof.
  intros Htot Htrans. induction l as [|y l IH]; intros Hs; simpl.
  { repeat constructor. }
  apply StronglySorted_cons in Hs as [Hy Hs].
  destruct (le x y) eqn:Hxy.
  - apply StronglySorted_cons. split; [|by apply StronglySorted_cons].
    constructor; [done|]. eapply Forall_impl; [exact Hy|]. intros z Hz. eauto.
  - apply StronglySorted_cons. split; [|by apply IH].
    rewrite insert_by_Permutation. constructor; [|done].
    destruct (Htot x y); congruence.
Qed.

Lemma sort_by_StronglySorted {A} (le : A -> A -> bool) (l : list A) :
  (∀ a b, le a b = true ∨ le b a = true) →
  (∀ a b c, le a b = true → le b c = true → le a c = true) →
  StronglySorted (fun a b => le a b = true) (sort_by le l).
Proof.
  intros Htot Htrans. induction l as [|x l IH]; [constructor|].
  unfold sort_by in *. simpl. by apply insert_by_StronglySorted.
Qed.

Lemma StronglySorted_lookup_lt {A} (R : A -> A -> Prop) (l : list A) i j x y :
  StronglySorted R l → i < j → l !! i = Some x → l !! j = Some y → R x y.
Proof.
  intros Hs Hij Hi Hj. rewrite <- (take_drop j l) in Hs.
  eapply StronglySorted_app_1_elem_of; [exact Hs| |].
  - apply elem_of_take. eauto.
  - apply list_elem_of_lookup. exists (j - j). rewrite lookup_drop.
    by replace (j + (j - j)) with j by lia.
Qed.

Lemma ascii_compare_refl (a : Ascii.ascii) : Ascii.compare a a = Eq.
Proof. unfold Ascii.compare. apply N.compare_refl. Qed.

Lemma ascii_compare_gt_trans (a b c : Ascii.ascii) :
  Ascii.compare a b = Gt → Ascii.compare b c = Gt → Ascii.compare a c = Gt.
Proof. unfold Ascii.compare. rewrite !N.compare_gt_iff. lia. Qed.

Lemma string_compare_refl (x : string) : String.compare x x = Eq.
Proof. induction x as [|a x IH]; simpl; [done|]. by rewrite ascii_compare_refl. Qed.

Lemma string_compare_gt_trans (x y z : string) :
  String.compare x y = Gt → String.compare y z = Gt → String.compare x z = Gt.
Proof.
  revert y z. induction x as [|a x IH]; intros [|b y] [|c z]; simpl; try done.
  destruct (Ascii.compare a b) eqn:Hab; try done.
  - apply Ascii.compare_eq_iff in Hab as ->.
    destruct (Ascii.compare b c) eqn:Hbc; try done. apply IH.
  - destruct (Ascii.compare b c) eqn:Hbc; try done.
    + apply Ascii.compare_eq_iff in Hbc as ->. by rewrite Hab.
    + by rewrite (ascii_compare_gt_trans a b c).
Qed.

Lemma ticket_order_true (a b : Uuid * Ticket) :
  ticket_order a b = true ↔
  String.compare (t_priority a.2) (t_priority b.2) = Gt
  ∨ (t_priority a.2 = t_priority b.2 ∧ (t_created_at a.2 ≤ t_created_at b.2)%Z).
Proof.
  unfold ticket_order.
  destruct (String.compare (t_priority a.2) (t_priority b.2)) eqn:Hc.
  - apply String.compare_eq_iff in Hc. rewrite bool_decide_eq_true.
    split; [by right|]. by intros [?|[_ ?]].
  - split; [done|]. intros [?|[Heq _]]; [done|].
    by rewrite Heq, string_compare_refl in Hc.
  - split; [by left|done].
Qed.

Lemma ticket_order_total a b : ticket_order a b = true ∨ ticket_order b a = true.
Proof.
  unfold ticket_order. rewrite (String.compare_antisym (t_priority b.2)).
  destruct (String.compare (t_priority a.2) (t_priority b.2)); simpl; auto.
  rewrite !bool_decide_eq_true. lia.
Qed.

Lemma ticket_order_trans a b c :
  ticket_order a b = true → ticket_order b c = true → ticket_order a c = true.
Proof.
  rewrite !ticket_order_true. intros [Hab|[Hab Hab']] [Hbc|[Hbc Hbc']].
  - left. by eapply string_compare_gt_trans.
  - left. by rewrite <- Hbc.
  - left. by rewrite Hab.
  - right. split; [congruence|lia].
Qed.

Lemma eligible_tickets_elem fid s id t :
  (id, t) ∈ eligible_tickets fid s ↔
  tickets s !! id = Some t ∧ t_factory_id t = fid ∧ t_status t = approved
  ∧ t_assigned_to t = None.
Proof.
  unfold eligible_tickets, ticket_rows.
  rewrite elem_of_filter, elem_of_map_to_list, !andb_true_iff, String.eqb_eq,
    !bool_decide_eq_true. tauto.
Qed.

(** X11.  The batch of an auto-assignment is the head of the eligible
    tickets (approved, unassigned, of the factory) in the order of the
    database: the name of the priority descending, as a string, then the
    creation date ascending.  It has min(limit, number of eligible tickets)
    tickets; no eligible ticket left out has a priority name that comes
    later, or the same priority and an earlier creation date, than a ticket
    of the batch; so a critical ticket is in the batch only when every
    ticket left out is critical too. *)
Theorem autoAssign_batch_order_by_priority_name (fid : string) (n : nat) (s : Store) :
  length (find_unassigned_tickets fid n s) = n `min` length (eligible_tickets fid s)
  ∧ ∀ a b,
      a ∈ find_unassigned_tickets fid n s →
      b ∈ eligible_tickets fid s →
      b ∉ find_unassigned_tickets fid n s →
      String.compare (t_priority b.2) (t_priority a.2) ≠ Gt
      ∧ (t_priority b.2 = t_priority a.2 →
         (t_created_at a.2 ≤ t_created_at b.2)%Z)
      ∧ (t_priority a.2 = "critical" → t_priority b.2 ∈ ticketPriority →
         t_priority b.2 = "critical").
Proof.
  unfold find_unassigned_tickets. fold (eligible_tickets fid s).
  split; [by rewrite length_take, sort_by_length|].
  intros a b Ha Hb Hnb.
  pose proof (sort_by_StronglySorted ticket_order (eligible_tickets fid s)
                ticket_order_total ticket_order_trans) as Hs.
  rewrite <- (sort_by_Permutation ticket_order) in Hb.
  rewrite <- (take_drop n (sort_by ticket_order (eligible_tickets fid s))) in Hb, Hs.
  apply elem_of_app in Hb as [Hb|Hb]; [done|].
  pose proof (StronglySorted_app_1_elem_of _ _ _ _ _ Hs Ha Hb) as Hab.
  apply ticket_order_true in Hab.
  assert (String.compare (t_priority b.2) (t_priority a.2) ≠ Gt) as Hle.
  { rewrite String.compare_antisym.
    destruct Hab as [->|[-> _]]; [done|]. by rewrite string_compare_refl. }
  split_and!; [done| |].
  - intros Heq. destruct Hab as [Hgt|[_ ?]]; [|done].
    by rewrite Heq, string_compare_refl in Hgt.
  - intros Ha' Hb'. rewrite Ha' in Hle. unfold ticketPriority in Hb'.
    repeat (apply elem_of_cons in Hb' as [Hb'|Hb']; [rewrite Hb' in Hle |- *|]);
      try done; by apply elem_of_nil in Hb'.
Qed.

Lemma autoAssign_batch_order_by_priority_name_witness :
  (find_unassigned_tickets "HRF" 1 priority_store).*1 = [1%positive]
  ∧ (t_priority <$> tickets priority_store !! 1%positive) = Some "low"
  ∧ (t_priority <$> tickets priority_store !! 2%positive) = Some "critical"
  ∧ length (find_unassigned_tickets "HRF" 1 priority_store)
    = 1 `min` length (eligible_tickets "HRF" priority_store).
Proof.
  split_and!; [by vm_compute..|].
  apply (autoAssign_batch_order_by_priority_name "HRF" 1 priority_store).
Defined.

Lemma initial_staffWorkload_sorted (supportStaff : list (Uuid * User)) s :
  StronglySorted (fun a b => activeCount a ≤ activeCount b)
    (initial_staffWorkload supportStaff s).
Proof.
  unfold initial_staffWorkload.
  eapply (Sorted.StronglySorted_ind
            (fun l => StronglySorted (fun a b => activeCount a ≤ activeCount b) l)).
  - constructor.
  - intros a l _ IH Hall. constructor; [done|].
    eapply Forall_impl; [exact Hall|]. intros b Hb. simpl in Hb.
    by apply bool_decide_eq_true in Hb.
  - apply (sort_by_StronglySorted
             (fun a b => bool_decide (activeCount a ≤ activeCount b))).
    + intros a b. rewrite !bool_decide_eq_true. lia.
    + intros a b c. rewrite !bool_decide_eq_true. lia.
Qed.

Lemma initial_staffWorkload_counts (supportStaff : list (Uuid * User)) s e :
  e ∈ initial_staffWorkload supportStaff s →
  activeCount e = count_active_tickets (staff e).1 s.
Proof.
  unfold initial_staffWorkload. rewrite sort_by_Permutation.
  intros H. apply list_elem_of_In, in_map_iff in H as (u & <- & _). done.
Qed.

(** X12.  Within a batch the extra tickets go to the less loaded staff: a
    staff member who receives more tickets than another eligible staff member
    did not hold more active tickets than that one before the batch. *)
Theorem autoAssign_extras_go_to_less_loaded (now : Z) (user : AuthUser)
    (factory_id : option string) (max_assignments : option nat) (s : Store)
    (u v : Uuid) :
  v ∈ (find_support_staff (default "" factory_id) s).*1 →
  received v (autoAssign now user factory_id max_assignments s).1
  < received u (autoAssign now user factory_id max_assignments s).1 →
  count_active_tickets u s ≤ count_active_tickets v s.
Proof.
  intros Hv.
  destruct (autoAssign_cases now user factory_id max_assignments s)
    as [[Htr ->]|[(Htr & Hs & [-> | ->])|(Htr & Hs & assigned & _ & Hdata & _ & H2 & _)]];
    simpl fst; try (unfold received, occ; simpl; lia).
  unfold received. rewrite Hdata, H2.
  set (fid := default "" factory_id) in *.
  set (N := length (find_unassigned_tickets fid (default 5 max_assignments) s)) in *.
  set (w := initial_staffWorkload (find_support_staff fid s) s).
  intros Hlt.
  pose proof (find_staff_ids_NoDup fid s) as Hnd. fold w in Hnd.
  assert (u ∈ staff_ids w) as Hu.
  { destruct (decide (u ∈ staff_ids w)) as [|Hn]; [done|].
    rewrite (occ_not_elem u) in Hlt; [lia|].
    intros H. by apply round_robin_elem in H. }
  rewrite <- (staff_ids_initial _ s) in Hv. fold w in Hv.
  apply list_elem_of_lookup_1 in Hu as [i Hi].
  apply list_elem_of_lookup_1 in Hv as [j Hj].
  pose proof (occ_round_robin_bounds _ i u N Hnd Hi) as [Hu1 Hu2].
  pose proof (occ_round_robin_bounds _ j v N Hnd Hj) as [Hv1 Hv2].
  pose proof (lookup_lt_Some _ _ _ Hi) as Hil.
  pose proof (lookup_lt_Some _ _ _ Hj) as Hjl.
  assert (i < j) as Hij by nia.
  unfold staff_ids in Hi, Hj. rewrite list_lookup_fmap in Hi, Hj.
  destruct (w !! i) as [eu|] eqn:Hei; [|done].
  destruct (w !! j) as [ev|] eqn:Hej; [|done].
  simpl in Hi, Hj. injection Hi as <-. injection Hj as <-.
  rewrite <- (initial_staffWorkload_counts (find_support_staff fid s) s eu)
    by (by eapply list_elem_of_lookup_2).
  rewrite <- (initial_staffWorkload_counts (find_support_staff fid s) s ev)
    by (by eapply list_elem_of_lookup_2).
  by apply (StronglySorted_lookup_lt _ w i j eu ev
              (initial_staffWorkload_sorted _ s)).
Qed.

Lemma autoAssign_extras_go_to_less_loaded_witness :
  received 2 (autoAssign 0%Z demo_admin (Some "HRF") None uneven_store).1 = 1
  ∧ received 4 (autoAssign 0%Z demo_admin (Some "HRF") None uneven_store).1 = 2
  ∧ count_active_tickets 4 uneven_store ≤ count_active_tickets 2 uneven_store.
Proof.
  split; [vm_compute; reflexivity|]. split; [vm_compute; reflexivity|].
  apply (autoAssign_extras_go_to_less_loaded 0%Z demo_admin (Some "HRF") None
           uneven_store 4 2).
  - vm_compute. apply list_elem_of_In. simpl. auto.
  - vm_compute. lia.
Defined.

Lemma find_support_staff_elem fid s u usr :
  (u, usr) ∈ find_support_staff fid s ↔
  users s !! u = Some usr ∧ u_factory_id usr = fid
  ∧ (u_role usr = support_staff ∨ u_role usr = manager) ∧ u_is_active usr = true.
Proof.
  unfold find_support_staff, user_rows, has_support_role.
  rewrite elem_of_filter, elem_of_map_to_list, !andb_true_iff, orb_true_iff,
    String.eqb_eq, !bool_decide_eq_true. tauto.
Qed.

(** X13.  Auto-assignment touches eligible rows only: every allocated
    ticket was approved, unassigned and of the requested factory; every
    assignee is an active user of that factory with role support_staff or
    manager; at most [max_assignments] (5 when absent) tickets are
    allocated; and every ticket outside the allocation is left as it was. *)
Theorem autoAssign_touches_only_eligible (now : Z) (user : AuthUser)
    (factory_id : option string) (max_assignments : option nat) (s : Store) :
  let fid := default "" factory_id in
  let resp := (autoAssign now user factory_id max_assignments s).1 in
  let s' := (autoAssign now user factory_id max_assignments s).2 in
  (∀ id u, (id, u) ∈ assigned_pairs resp →
     (∃ t, tickets s !! id = Some t ∧ t_factory_id t = fid
           ∧ t_status t = approved ∧ t_assigned_to t = None)
     ∧ (∃ usr, users s !! u = Some usr ∧ u_factory_id usr = fid
               ∧ (u_role usr = support_staff ∨ u_role usr = manager)
               ∧ u_is_active usr = true))
  ∧ length (assigned_pairs resp) ≤ default 5 max_assignments
  ∧ (∀ id, id ∉ (assigned_pairs resp).*1 → tickets s' !! id = tickets s !! id).
Proof.
  intros fid resp s'. subst resp s'.
  destruct (autoAssign_cases now user factory_id max_assignments s)
    as [[Htr E]|[(Htr & Hs & [E | E])
                |(Htr & Hs & assigned & _ & Hdata & H1 & H2 & _)]];
    try (rewrite E; unfold assigned_pairs; simpl;
         split_and!; [intros id u H; by apply elem_of_nil in H | lia | done]).
  fold fid in Hs, H1, H2. unfold assigned_pairs. rewrite Hdata.
  split_and!.
  - intros id u Hin. split.
    + apply (list_elem_of_fmap_2 fst) in Hin. rewrite H1 in Hin. simpl in Hin.
      apply list_elem_of_fmap in Hin as ([id' t] & Heq & Hin). simpl in Heq. subst id'.
      apply find_unassigned_tickets_elem in Hin as (? & ? & ? & ?). eauto.
    + apply (list_elem_of_fmap_2 snd) in Hin. rewrite H2 in Hin. simpl in Hin.
      apply round_robin_elem in Hin. rewrite staff_ids_initial in Hin.
      apply list_elem_of_fmap in Hin as ([u' usr] & Heq & Hin). simpl in Heq. subst u'.
      apply find_support_staff_elem in Hin. eauto.
  - rewrite <- (length_fmap fst), H1, length_fmap.
    unfold find_unassigned_tickets. rewrite length_take. lia.
  - intros id Hid. rewrite H1 in Hid.
    destruct factory_id as [f|]; [|done].
    assert (f ≠ "") as Hf by (intros ->; done).
    rewrite autoAssign_unfold by done. simpl in fid.
    destruct (find_unassigned_tickets f (default 5 max_assignments) s) eqn:Hl; [done|].
    destruct (find_support_staff f s) eqn:Hst; [done|].
    cbn [snd]. rewrite <- Hl in *.
    by rewrite autoAssign_loop_tickets_frame.
Qed.

(** ** Remaining time *)

(** X14.  A ticket is overdue exactly when it has a remaining time and that
    time is negative; it has no remaining time exactly when it has no
    deadline or is completed or closed. *)
Theorem isOverdue_iff_negative_time_remaining (now : Z) (t : Ticket) :
  (isOverdue now t = true ↔ ∃ r, getTimeRemaining now t = Some r ∧ (r < 0)%Z)
  ∧ (getTimeRemaining now t = None ↔
     t_sla_deadline t = None ∨ t_status t = completed ∨ t_status t = closed).
Proof.
  unfold isOverdue, getTimeRemaining, isCompleted, isClosed.
  destruct (t_sla_deadline t) as [d|].
  - destruct (decide (t_status t = completed)) as [Hc|Hc];
      [rewrite (bool_decide_eq_true_2 _ Hc)|rewrite (bool_decide_eq_false_2 _ Hc)];
      simpl.
    { split; [split; [done|by intros (? & ? & _)]|]. split; auto. }
    destruct (decide (t_status t = closed)) as [Hd|Hd];
      [rewrite (bool_decide_eq_true_2 _ Hd)|rewrite (bool_decide_eq_false_2 _ Hd)];
      simpl.
    { split; [split; [done|by intros (? & ? & _)]|]. split; auto. }
    split.
    + rewrite bool_decide_eq_true. split.
      * intros H. exists (d - now)%Z. split; [done|lia].
      * intros (r & [= <-] & H). lia.
    + split; [done|]. intros [?|[?|?]]; done.
  - split; [split; [done|by intros (? & ? & _)]|]. split; auto.
Qed.

(** ** Permissions and the guarded routes *)

(** X15.  Without a context, [hasPermission] only asks whether the entry is
    [true] or a non-empty scope list, so the approve and assign routes let
    every manager and admin through and refuse every employee and
    support_staff with a 403 that writes nothing; the scopes (department for
    a manager) are not compared with the ticket: a manager's request reaches
    the handler whatever the factory of the ticket. *)
Theorem approve_assign_routes_by_role (now : Z) (user : AuthUser) (id : Uuid)
    (decision reason notes : option string) (assigned_to : option Uuid) (s : Store) :
  (au_role user = manager ∨ au_role user = admin →
   route_approve now user id decision reason s
     = approveTicket now user id decision reason s
   ∧ route_assign now user id assigned_to notes s
     = assignTicket now user id assigned_to notes s)
  ∧ (au_role user = employee ∨ au_role user = support_staff →
     route_approve now user id decision reason s
       = (failure 403 "Access denied. Insufficient permissions for approve on tickets", s)
     ∧ route_assign now user id assigned_to notes s
       = (failure 403 "Access denied. Insufficient permissions for assign on tickets", s)).
Proof.
  unfold route_approve, route_assign, guarded, canApproveTickets, canAssignTickets,
    requirePermission, hasPermission.
  split; intros [H|H]; rewrite H; done.
Qed.

Lemma approve_assign_routes_by_role_witness :
  r_success (route_approve 5000 demo_manager 1 (Some "approved") None
               (store_with foreign_review_ticket)).1 = true
  ∧ (t_status <$>
       tickets (route_approve 5000 demo_manager 1 (Some "approved") None
                  (store_with foreign_review_ticket)).2 !! 1%positive) = Some approved.
Proof.
  destruct (approve_assign_routes_by_role 5000 demo_manager 1 (Some "approved") None
              None None (store_with foreign_review_ticket)) as [H _].
  destruct H as [-> _]; [by left|]. vm_compute. done.
Defined.

(** ** Comments *)

Lemma substring_length_le (n m : nat) (str : string) :
  String.length (String.substring n m str) ≤ m.
Proof.
  revert n m. induction str as [|c str IH]; intros n m.
  - destruct n, m; simpl; lia.
  - destruct n as [|n]; simpl.
    + destruct m as [|m]; simpl; [lia|]. specialize (IH 0 m). lia.
    + apply IH.
Qed.

Lemma substring_all (str : string) (m : nat) :
  String.length str ≤ m → String.substring 0 m str = str.
Proof.
  revert m. induction str as [|c str IH]; intros m Hm.
  - by destruct m.
  - destruct m as [|m]; simpl in *; [lia|]. rewrite IH; [done|lia].
Qed.

Lemma string_length_app (a b : string) :
  String.length (a +:+ b) = String.length a + String.length b.
Proof. induction a as [|c a IH]; simpl; [done|]. by rewrite IH. Qed.

(** X16.  A non-empty comment on a ticket the user may read is answered
    500, and yet it is written: the comment is stored, as internal only if
    the caller asked for it and is not an employee; the history row keeps
    the content itself when it has at most 100 code units and never more
    than 103; an internal comment notifies nobody, another comment notifies
    the requester, or the assignee (if any) when the author is the
    requester; tickets, assignments and approvals are untouched. *)
Theorem addComment_effects (user : AuthUser) (id : Uuid) (content : string)
    (is_internal : option bool) (s : Store) (comments : list TicketComment)
    (ticket : Ticket) :
  content ≠ "" →
  tickets s !! id = Some ticket →
  checkTicketAccess ticket user = true →
  ∃ (internal : bool) (excerpt : string),
    (addComment user id (Some content) is_internal s comments).1.1
      = failure 500 "Internal server error"
    ∧ (addComment user id (Some content) is_internal s comments).1.2
      = with_notifications
          (notifications s
           ++ (if internal then []
               else if bool_decide (t_requester_id ticket = au_id user)
                    then (fun u => mkNotification u "new_comment")
                           <$> option_list (t_assigned_to ticket)
                    else [mkNotification (t_requester_id ticket) "new_comment"]))%list
          (with_history
             (history s ++ [mkHistory id (au_id user) a_commented None
                              (Some (VText excerpt)) (Some "comment") None])%list s)
    ∧ (addComment user id (Some content) is_internal s comments).2
      = (comments ++ [mkComment id (au_id user) content internal])%list
    ∧ (internal = true ↔ is_internal = Some true ∧ au_role user ≠ employee)
    ∧ String.length excerpt ≤ 103
    ∧ (String.length content ≤ 100 → excerpt = content).
Proof.
  intros Hne Ht Hacc. unfold addComment.
  assert (truthy (Some content) = true) as ->.
  { simpl. by destruct (String.eqb_spec content ""). }
  simpl negb. cbv iota. rewrite Ht, Hacc. simpl negb. cbv iota.
  exists (default false is_internal
          && (bool_decide (au_role user = support_staff)
              || bool_decide (au_role user = admin)
              || bool_decide (au_role user = manager))),
         (comment_excerpt content).
  cbn [fst snd default]. split_and!.
  - done.
  - unfold createNotification, createTicketHistory, create_notification, create_history.
    destruct s; simpl.
    destruct (default false is_internal && _); simpl; [by rewrite app_nil_r|].
    case_bool_decide; simpl; [|done].
    destruct (t_assigned_to ticket); simpl; [done|by rewrite app_nil_r].
  - done.
  - destruct is_internal as [[|]|]; simpl; destruct (au_role user); simpl;
      split; try done; try (by intros [? ?]); try (by intros [[=] ?]).
  - unfold comment_excerpt. rewrite string_length_app.
    pose proof (substring_length_le 0 100 content).
    case_bool_decide; simpl; lia.
  - intros Hlen. unfold comment_excerpt.
    rewrite bool_decide_eq_false_2 by lia. rewrite substring_all by done.
    clear. induction content as [|c content IH]; [done|].
    change ((String c content) +:+ "") with (String c (content +:+ "")).
    by rewrite IH.
Qed.

Lemma addComment_effects_witness :
  (addComment demo_employee 1 (Some "Any news?") (Some true)
     (store_with pending_ticket) []).2
  = [mkComment 1 3 "Any news?" false]
  ∧ r_code (addComment demo_employee 1 (Some "Any news?") (Some true)
              (store_with pending_ticket) []).1.1 = 500%Z.
Proof.
  destruct (addComment_effects demo_employee 1 "Any news?" (Some true)
              (store_with pending_ticket) [] pending_ticket)
    as (internal & excerpt & Hr & _ & Hc & Hint & _);
    [discriminate | reflexivity | reflexivity |].
  rewrite Hc, Hr. split; [|done]. destruct internal; [|done].
  destruct Hint as [Hint _]. by destruct (Hint eq_refl) as [_ ?].
Defined.

(** ** The ticket list and the access check *)

(** X17.  Every ticket the list route selects for an employee, a manager, or
    a support_staff user who sends no search text is one that
    [checkTicketAccess] lets that user read. *)
Theorem listed_tickets_are_accessible (ilike : string -> string -> bool)
    (user : AuthUser) (q : ListQuery) (number : string) (t : Ticket) :
  (au_role user = support_staff → truthy (q_search q) = false) →
  where_matches ilike (ticketsWhere user q) number t = true →
  checkTicketAccess t user = true.
Proof.
  intros Hsearch. unfold ticketsWhere, checkTicketAccess, hasPermission.
  destruct (au_role user) eqn:Hrole; simpl.
  - (* employee *)
    destruct (truthy (q_status q)), (truthy (q_priority q)), (truthy (q_factory_id q)),
      (q_assigned_to q), (truthy (q_search q)); simpl;
      unfold where_matches; simpl; intros H;
      repeat (apply andb_prop in H as [H ?]); done.
  - (* support_staff *)
    rewrite Hsearch by done.
    destruct (truthy (q_status q)), (truthy (q_priority q)), (truthy (q_factory_id q)),
      (q_assigned_to q); simpl;
      unfold where_matches; simpl; intros H;
      repeat (apply andb_prop in H as [H ?]);
      repeat match goal with
             | H : (_ || _) = true |- _ => apply orb_prop in H as [H|H]
             | H : (_ && _) = true |- _ => apply andb_prop in H as [H ?]
             | H : false = true |- _ => discriminate H
             end;
      apply orb_true_iff; auto.
  - (* manager *)
    destruct (truthy (q_status q)), (truthy (q_priority q)), (truthy (q_factory_id q)),
      (q_assigned_to q), (truthy (q_search q)); simpl;
      unfold where_matches; simpl; intros H;
      repeat (apply andb_prop in H as [H ?]); done.
  - done.
Qed.

Lemma listed_tickets_are_accessible_witness :
  checkTicketAccess pending_ticket demo_employee = true.
Proof.
  apply (listed_tickets_are_accessible simple_like demo_employee
           (mkListQuery (Some "pending") None None None (Some "a")) "HIT2601010001").
  - discriminate.
  - reflexivity.
Defined.

(** X18.  When a support_staff user sends a non-empty search text, the
    three search alternatives replace the role restriction, which sits under
    the same [Op.or] key: the where clause handed to the database holds the
    status and priority filters and the search alternatives and nothing
    else, so it is the same for every support_staff user, whatever their id
    and factory.  Without the search text the key holds the restriction to
    the user's own tickets and the open tickets of the user's factory. *)
Theorem search_overwrites_support_staff_scope (user : AuthUser) (q : ListQuery)
    (search : string) :
  au_role user = support_staff →
  q_search q = Some search →
  search ≠ "" →
  ticketsWhere user q
  = mkWhere None None
      (if truthy (q_status q) then q_status q else None)
      (if truthy (q_priority q) then q_priority q else None)
      None
      (Some [ [c_title_ilike ("%" +:+ search +:+ "%")];
              [c_description_ilike ("%" +:+ search +:+ "%")];
              [c_ticket_number_ilike ("%" +:+ search +:+ "%")] ])
  ∧ w_or (ticketsWhere user
            (mkListQuery (q_status q) (q_priority q) (q_factory_id q)
               (q_assigned_to q) None))
    = Some [ [c_assigned_to (Some (au_id user))];
             [c_factory_id (au_factory_id user); c_assigned_to None;
              c_status_in [approved; in_progress]] ].
Proof.
  intros Hrole Hs Hne. unfold ticketsWhere, hasPermission. rewrite Hrole, Hs.
  assert (truthy (Some search) = true) as ->.
  { simpl. by destruct (String.eqb_spec search ""). }
  rewrite andb_false_r. cbn [q_status q_priority q_factory_id q_assigned_to q_search].
  split.
  - destruct (q_status q) as [st|], (q_priority q) as [pr|], (q_assigned_to q);
      simpl; repeat case_match; done.
  - rewrite andb_false_r.
    destruct (truthy (q_status q)), (truthy (q_priority q)), (q_assigned_to q);
      simpl; done.
Qed.

Lemma search_overwrites_support_staff_scope_witness :
  ticketsWhere demo_staff (mkListQuery None None None None (Some "printer"))
  = ticketsWhere (mkAuthUser 5 support_staff "MVF")
      (mkListQuery None None None None (Some "printer")).
Proof.
  destruct (search_overwrites_support_staff_scope demo_staff
              (mkListQuery None None None None (Some "printer")) "printer")
    as [-> _]; [reflexivity | reflexivity | discriminate |].
  destruct (search_overwrites_support_staff_scope (mkAuthUser 5 support_staff "MVF")
              (mkListQuery None None None None (Some "printer")) "printer")
    as [-> _]; [reflexivity | reflexivity | discriminate |].
  reflexivity.
Defined.

(** ** Assignment dashboard and team workload *)


(** X19.  Whatever ticket the dashboard offers a user as available, that
    user's self-assignment of it succeeds exactly when the dashboard's count of
    active tickets is below 10: the offer and the check use the same
    conditions. *)
Theorem dashboard_offer_is_self_assignable (now now' : Z) (user : AuthUser)
    (s : Store) (id : Uuid) (t : Ticket) (notes : option string) :
  (id, t) ∈ d_availableTickets (assignmentDashboard now user s) →
  r_success (selfAssign now' user id notes s).1
  = bool_decide (ws_active (d_workloadStats (assignmentDashboard now user s)) < 10).
Proof.
  intros Hin.
  assert (ws_active (d_workloadStats (assignmentDashboard now user s))
          = count_active_tickets (au_id user) s) as ->.
  { unfold assignmentDashboard, count_active_tickets. cbn [d_workloadStats ws_active].
    apply sort_by_length. }
  assert (tickets s !! id = Some t ∧ t_status t = approved ∧ t_assigned_to t = None
          ∧ (au_role user = support_staff → t_factory_id t = au_factory_id user))
    as (Ht & Hst & Hasg & Hfac).
  { unfold assignmentDashboard in Hin. cbn [d_availableTickets] in Hin.
    case_bool_decide as Hrole.
    - apply find_unassigned_tickets_elem in Hin as (? & ? & ? & ?). done.
    - destruct (bool_decide (au_role user = admin) || bool_decide (au_role user = manager));
        [|by apply elem_of_nil in Hin].
      apply elem_of_take in Hin as (i & Hin & _). apply list_elem_of_lookup_2 in Hin.
      rewrite sort_by_Permutation in Hin.
      apply elem_of_filter in Hin as [Hin Hf]. apply elem_of_map_to_list in Hin.
      apply andb_prop in Hf as [H1 H2].
      apply bool_decide_eq_true in H1, H2. done. }
  unfold selfAssign, maxWorkload. rewrite Ht.
  rewrite (bool_decide_eq_true_2 (t_status t = approved)) by done. simpl negb. cbv iota.
  rewrite Hasg. rewrite (bool_decide_eq_false_2 (is_Some None)) by (by intros [? ?]).
  assert (bool_decide (au_role user = support_staff)
          && negb (String.eqb (t_factory_id t) (au_factory_id user)) = false) as ->.
  { case_bool_decide as Hr; [|done]. rewrite (Hfac Hr), String.eqb_refl. done. }
  destruct (decide (10 ≤ count_active_tickets (au_id user) s)) as [Hle|Hlt].
  - rewrite (bool_decide_eq_true_2 _ Hle). simpl.
    symmetry. apply bool_decide_eq_false_2. lia.
  - rewrite (bool_decide_eq_false_2 _ Hlt). simpl.
    symmetry. apply bool_decide_eq_true_2. lia.
Qed.

Lemma dashboard_offer_is_self_assignable_witness :
  r_success (selfAssign 5%Z demo_staff 11 None capped_store).1 = false
  ∧ ws_active (d_workloadStats (assignmentDashboard 0%Z demo_staff capped_store)) = 10.
Proof.
  split; [|by vm_compute].
  rewrite (dashboard_offer_is_self_assignable 0%Z 5%Z demo_staff capped_store 11
             approved_ticket None); [by vm_compute|].
  vm_compute. apply list_elem_of_here.
Defined.

